(** * SAJ H2 Inverter Card Timer: a shallow embedding and its properties

    The card is a single JavaScript class, [SajH2InverterCardTimer].  Its
    methods are embedded here as Rocq functions:

    - JavaScript numbers are exact: integers are [Z], the kW/percent
      arithmetic of the power slider is done in [Q]; [NaN] is the [None]
      of an [option].  Binary64 rounding is not part of the embedding.
    - JavaScript objects are association lists in insertion order, the host
      state [hass.states] is a finite map from entity id to entity record.
    - The [Date] object is embedded over an explicit environment: the
      clock reading and the local time zone, given by its UTC offsets.
    - Service calls are returned as a list, in the order they are issued. *)

From Stdlib Require Import ZArith QArith Qround Lia Lqa List Bool Ascii String.
From Stdlib Require Import DecimalString.
From stdpp Require Import gmap strings list.

Set Warnings "-register-all".

Local Open Scope string_scope.
Local Open Scope Z_scope.

(** ** Strings and numbers of the host language *)

(** A number that may be [NaN]. *)
Abbreviation Num := (option Z).

Definition numAdd (a b : Num) : Num :=
  match a, b with Some x, Some y => Some (x + y) | _, _ => None end.

Definition numMul (a b : Num) : Num :=
  match a, b with Some x, Some y => Some (x * y) | _, _ => None end.

(** [String(n)] for an integer or [NaN]. *)
Definition String_ (n : Num) : string :=
  match n with
  | None => "NaN"
  | Some z => NilEmpty.string_of_int (Z.to_int z)
  end.

(** [s.padStart(2, '0')]. *)
Definition padStart2 (s : string) : string :=
  match s with
  | EmptyString => "00"
  | String c EmptyString => String "0" (String c EmptyString)
  | _ => s
  end.

Definition charBetween (lo hi c : ascii) : bool :=
  (N_of_ascii lo <=? N_of_ascii c)%N && (N_of_ascii c <=? N_of_ascii hi)%N.

(** The class [\d]. *)
Definition isDigit (c : ascii) : bool := charBetween "0" "9" c.

Definition digitValue (c : ascii) : Z := Z.of_N (N_of_ascii c) - 48.

(** [/^([01]\d|2[0-3]):([0-5]\d)$/.test(s)]: without the [m] flag the
    anchors are the two ends of the string, so exactly five characters
    match. *)
Definition isTimeString (s : string) : bool :=
  match s with
  | String h1 (String h2 (String sep (String m1 (String m2 EmptyString)))) =>
      ((charBetween "0" "1" h1 && isDigit h2)
       || (Ascii.eqb h1 "2" && charBetween "0" "3" h2))
      && Ascii.eqb sep ":" && charBetween "0" "5" m1 && isDigit m2
  | _ => false
  end.

(** [s.split(sep)] for a one-character separator. *)
Fixpoint split (sep : ascii) (s : string) : list string :=
  match s with
  | EmptyString => [EmptyString]
  | String c rest =>
      if Ascii.eqb c sep then EmptyString :: split sep rest
      else match split sep rest with
           | p :: ps => String c p :: ps
           | [] => [String c EmptyString]
           end
  end.

Fixpoint digitsValue (acc : Z) (s : string) : option Z :=
  match s with
  | EmptyString => Some acc
  | String c rest =>
      if isDigit c then digitsValue (10 * acc + digitValue c) rest else None
  end.

(** [Number(s)] on the strings of at most fifteen decimal digits, where it
    is the decimal value (and [0] for the empty string).  The other literal
    forms (signs, fractions, exponents, radix prefixes, white space) are
    outside the embedding: [None]. *)
Definition Number_ (s : string) : option Z :=
  if (String.length s <=? 15)%nat then digitsValue 0 s else None.

(** ** The [Date] object *)

(** The local time zone: the offset from UTC in milliseconds, read at a UTC
    instant ([LocalTZA(t, true)]) and at a local time value
    ([LocalTZA(t, false)]). *)
Record TimeZone := {
  offsetAtUTC : Z -> Z;
  offsetAtLocal : Z -> Z
}.

(** What the card reads from its surroundings: the clock, in milliseconds
    since the epoch, and the time zone. *)
Record Env := {
  clock : Z;
  zone : TimeZone
}.

Definition msPerMinute : Z := 60000.
Definition msPerHour : Z := 3600000.
Definition msPerDay : Z := 86400000.

(** A [Date] holds a time value or [NaN]. *)
Abbreviation Date := (option Z).

Definition TimeClip (t : Z) : Date :=
  if Z.abs t <=? 8640000000000000 then Some t else None.

Definition LocalTime (tz : TimeZone) (t : Z) : Z := t + offsetAtUTC tz t.
Definition UTC (tz : TimeZone) (t : Z) : Z := t - offsetAtLocal tz t.

Definition Day (t : Z) : Z := t / msPerDay.
Definition MakeTime (hour min sec ms : Z) : Z :=
  hour * msPerHour + min * msPerMinute + sec * 1000 + ms.
Definition MakeDate (day time : Z) : Z := day * msPerDay + time.

(** [new Date()]. *)
Definition Date_now (env : Env) : Date := Some (clock env).

(** [new Date(value)] for a number. *)
Definition Date_of (value : Num) : Date :=
  match value with Some v => TimeClip v | None => None end.

Definition getTime (d : Date) : Num := d.

Definition getHours (tz : TimeZone) (d : Date) : Num :=
  match d with
  | Some t => Some ((LocalTime tz t / msPerHour) mod 24)
  | None => None
  end.

Definition getMinutes (tz : TimeZone) (d : Date) : Num :=
  match d with
  | Some t => Some ((LocalTime tz t / msPerMinute) mod 60)
  | None => None
  end.

(** [getDay()]: 0 is Sunday; the epoch fell on a Thursday. *)
Definition getDay (tz : TimeZone) (d : Date) : Num :=
  match d with
  | Some t => Some ((Day (LocalTime tz t) + 4) mod 7)
  | None => None
  end.

(** [d.setHours(hour, min, sec, ms)], returning the updated date. *)
Definition setHours (tz : TimeZone) (d : Date) (hour min : Num) (sec ms : Z)
  : Date :=
  match d, hour, min with
  | Some t, Some h, Some m =>
      TimeClip (UTC tz (MakeDate (Day (LocalTime tz t)) (MakeTime h m sec ms)))
  | _, _, _ => None
  end.

(** ** Time helpers of the card *)

(** [_getCurrentTime()] *)
Definition _getCurrentTime (env : Env) : string :=
  let now := Date_now env in
  let hours := padStart2 (String_ (getHours (zone env) now)) in
  let minutes := padStart2 (String_ (getMinutes (zone env) now)) in
  hours ++ ":" ++ minutes.

(** [const [hours, minutes] = s.split(':').map(Number)]: a missing second
    field is [undefined], which [setHours] reads as [NaN].  The result is
    [None] when a field lies outside the fragment of [Number] that is
    embedded. *)
Definition timeFields (s : string) : option (Num * Num) :=
  match split ":" s with
  | [] => None
  | [h] => match Number_ h with Some hours => Some (Some hours, None) | None => None end
  | h :: m :: _ =>
      match Number_ h, Number_ m with
      | Some hours, Some minutes => Some (Some hours, Some minutes)
      | _, _ => None
      end
  end.

(** [_calculateEndTime(startTime, durationMinutes)]; [None] when
    [startTime] is outside the fragment read by [timeFields]. *)
Definition _calculateEndTime (env : Env) (startTime : string)
    (durationMinutes : Num) : option string :=
  match timeFields startTime with
  | None => None
  | Some (hours, minutes) =>
      let startDate := setHours (zone env) (Date_now env) hours minutes 0 0 in
      let endDate :=
        Date_of (numAdd (getTime startDate)
                        (numMul durationMinutes (Some 60000))) in
      let endHours := padStart2 (String_ (getHours (zone env) endDate)) in
      let endMinutes := padStart2 (String_ (getMinutes (zone env) endDate)) in
      Some (endHours ++ ":" ++ endMinutes)
  end.

(** [_timeToMinutes(timeStr)]; a [null] or [undefined] argument is [None].
    A string that passes the test has two two-digit fields. *)
Definition _timeToMinutes (timeStr : option string) : Z :=
  match timeStr with
  | None => 0
  | Some s =>
      if String.eqb s "" || negb (isTimeString s) then 0
      else match timeFields s with
           | Some (Some hours, Some minutes) => hours * 60 + minutes
           | _ => 0
           end
  end.

(** ** 32-bit integer operators *)

Definition toInt32 (z : Z) : Z := (z + 2 ^ 31) mod 2 ^ 32 - 2 ^ 31.

(** [a << b] *)
Definition shl32 (a b : Z) : Z := toInt32 (Z.shiftl (toInt32 a) (b mod 32)).

(** [a & b] *)
Definition and32 (a b : Z) : Z := Z.land (toInt32 a) (toInt32 b).

(** [_getTodayDayMask()]: Monday is bit 0, Sunday bit 6. *)
Definition _getTodayDayMask (env : Env) : Num :=
  match getDay (zone env) (Date_now env) with
  | Some today =>
      let dayIndex := if today =? 0 then 6 else today - 1 in
      Some (shl32 1 dayIndex)
  | None => None
  end.

(** ** Values of the host language *)

Inductive JSNumber :=
  | JNaN
  | JInfinity (negative : bool)
  | JFinite (q : Q).

(** Objects keep their own properties in insertion order. *)
Inductive JValue :=
  | JUndefined
  | JNull
  | JBool (b : bool)
  | JNumber (n : JSNumber)
  | JString (s : string)
  | JArray (items : list JValue)
  | JObject (props : list (string * JValue)).

Definition truthy (v : JValue) : bool :=
  match v with
  | JUndefined | JNull => false
  | JBool b => b
  | JNumber JNaN => false
  | JNumber (JInfinity _) => true
  | JNumber (JFinite q) => negb (Qeq_bool q 0)
  | JString s => negb (String.eqb s "")
  | JArray _ | JObject _ => true
  end.

(** [a || b] *)
Definition orElse (a b : JValue) : JValue := if truthy a then a else b.

Fixpoint lookupProp (props : list (string * JValue)) (key : string) : JValue :=
  match props with
  | [] => JUndefined
  | (k, v) :: rest => if String.eqb k key then v else lookupProp rest key
  end.

(** [o[key] = v] *)
Fixpoint setProp (props : list (string * JValue)) (key : string) (v : JValue)
  : list (string * JValue) :=
  match props with
  | [] => [(key, v)]
  | (k, w) :: rest =>
      if String.eqb k key then (k, v) :: rest else (k, w) :: setProp rest key v
  end.

(** [o[key]], or [o.key], for the keys the card uses: none of them is a
    property of a string, an array or a prototype. *)
Definition getProp (o : JValue) (key : string) : JValue :=
  match o with
  | JObject props => lookupProp props key
  | _ => JUndefined
  end.

Definition isUndefined (v : JValue) : bool :=
  match v with JUndefined => true | _ => false end.

Definition isArray (v : JValue) : bool :=
  match v with JArray _ => true | _ => false end.

(** [obj && typeof obj === 'object' && !Array.isArray(obj)] *)
Definition isObject (v : JValue) : bool :=
  match v with JObject _ => true | _ => false end.

(** [typeof v === 'number'] *)
Definition isNumber (v : JValue) : bool :=
  match v with JNumber _ => true | _ => false end.

(** [v <= 0] for a number. *)
Definition numberLe0 (n : JSNumber) : bool :=
  match n with
  | JNaN => false
  | JInfinity negative => negative
  | JFinite q => Qle_bool q 0
  end.

(** [v === s] for a string literal [s]. *)
Definition isString (v : JValue) (s : string) : bool :=
  match v with JString t => String.eqb t s | _ => false end.

(** ** Configuration *)

(** [_deepMerge(target, source)] *)
Fixpoint _deepMerge (target source : JValue) {struct source} : JValue :=
  match target, source with
  | JObject t, JObject s =>
      let output := t in
      let output :=
        fold_left
          (fun output '(key, sourceValue) =>
             let targetValue := lookupProp output key in
             if isArray targetValue && isArray sourceValue
             then setProp output key sourceValue
             else if isObject targetValue && isObject sourceValue
                  then setProp output key (_deepMerge targetValue sourceValue)
                  else setProp output key sourceValue)
          s output in
      let output :=
        fold_left
          (fun output key =>
             if isUndefined (lookupProp s key)
             then setProp output key (lookupProp t key)
             else output)
          (map fst t) output in
      JObject output
  | _, _ =>
      match source with
      | JNull | JUndefined => target
      | _ => source
      end
  end.

Definition DEFAULT_ENTITIES : JValue :=
  JObject
    [ ("chargeStart", JString "text.saj_charge_start_time_time");
      ("chargeEnd", JString "text.saj_charge_end_time_time");
      ("chargeDayMask", JString "number.saj_charge_day_mask_input");
      ("chargePower", JString "number.saj_battery_charge_power_limit_input");
      ("chargingSwitch", JString "switch.saj_charging_control");
      ("chargePowerSensor", JString "sensor.saj_charge_power_percent");
      ("batteryChargePowerLimit", JString "sensor.saj_battery_charge_power_limit");
      ("dischargeStart", JString "text.saj_discharge1_start_time_time");
      ("dischargeEnd", JString "text.saj_discharge1_end_time_time");
      ("dischargePower", JString "number.saj_discharge1_power_percent_input");
      ("dischargeDayMask", JString "number.saj_discharge1_day_mask_input");
      ("dischargingSwitch", JString "switch.saj_discharging_control");
      ("dischargePowerSensor", JString "sensor.saj_discharge_power_percent") ].

Module Config.

(** The fields of the card that [setConfig] reads and writes, as the
    values the configuration gives them; [_hass] records whether a host
    state has been received. *)
Record Card := {
  _inverterMaxOutput : JValue;
  _entities : JValue;
  _mode : JValue;
  _hass : bool;
  _debug : bool
}.

(** The card as the constructor leaves it. *)
Definition constructor : Card :=
  {| _inverterMaxOutput := JNumber (JFinite 5);
     _entities := DEFAULT_ENTITIES;
     _mode := JString "both";
     _hass := false;
     _debug := false |}.

Inductive Error :=
  | InvalidConfiguration
  | InvalidMode (mode : JValue)
  | InvalidMaxOutput (maxOutput : JValue).

(** How a call of [setConfig] ends: the card it leaves, the error it
    threw if any, and whether it called [_renderCard]. *)
Record Result := {
  card : Card;
  thrown : option Error;
  rendered : bool
}.

(** [['charge', 'discharge', 'both'].includes(mode)] *)
Definition validMode (mode : JValue) : bool :=
  isString mode "charge" || isString mode "discharge" || isString mode "both".

(** [typeof v !== 'number' || v <= 0] *)
Definition invalidMaxOutput (v : JValue) : bool :=
  match v with
  | JNumber n => numberLe0 n
  | _ => true
  end.

(** [setConfig(config)]; the copy of [DEFAULT_ENTITIES] made through
    [JSON] is the same value. *)
Definition setConfig (this : Card) (config : JValue) : Result :=
  if negb (truthy config) then
    {| card := this; thrown := Some InvalidConfiguration; rendered := false |}
  else
    let this :=
      {| _inverterMaxOutput := _inverterMaxOutput this;
         _entities := _entities this;
         _mode := orElse (getProp config "mode") (JString "both");
         _hass := _hass this;
         _debug := _debug this |} in
    if negb (validMode (_mode this)) then
      {| card := this; thrown := Some (InvalidMode (_mode this));
         rendered := false |}
    else
      let this :=
        {| _inverterMaxOutput :=
             orElse (getProp config "maxOutput") (JNumber (JFinite 5));
           _entities := _entities this;
           _mode := _mode this;
           _hass := _hass this;
           _debug := _debug this |} in
      if invalidMaxOutput (_inverterMaxOutput this) then
        {| card := this;
           thrown := Some (InvalidMaxOutput (_inverterMaxOutput this));
           rendered := false |}
      else
        let this :=
          {| _inverterMaxOutput := _inverterMaxOutput this;
             _entities :=
               _deepMerge DEFAULT_ENTITIES
                          (orElse (getProp config "entities") (JObject []));
             _mode := _mode this;
             _hass := _hass this;
             _debug :=
               match getProp config "debug" with
               | JBool true => true
               | _ => false
               end |} in
        {| card := this; thrown := None; rendered := _hass this |}.

End Config.

(** ** The host state and the configured card *)

(** An attribute value, as far as the card compares it. *)
Inductive AttrValue :=
  | ABool (b : bool)
  | ANumber (z : Z)
  | AString (s : string)
  | ANull.

#[global] Instance AttrValue_eq_dec : EqDecision AttrValue.
Proof. solve_decision. Defined.

(** A state object of the host.  [identity] stands for the object itself:
    two records with the same [identity] are one object. *)
Record Entity := {
  identity : positive;
  state : string;
  attributes : option (gmap string AttrValue);
  last_changed : string;
  last_updated : string
}.

Record Hass := {
  states : gmap string Entity
}.

(** [e?.attributes?.pending_write]; [None] is [undefined]. *)
Definition pending_write (e : Entity) : option AttrValue :=
  match attributes e with
  | Some attrs => attrs !! "pending_write"
  | None => None
  end.

(** The entity ids of the thirteen roles. *)
Record Entities := {
  chargeStart : string;
  chargeEnd : string;
  chargeDayMask : string;
  chargePower : string;
  chargingSwitch : string;
  chargePowerSensor : string;
  batteryChargePowerLimit : string;
  dischargeStart : string;
  dischargeEnd : string;
  dischargePower : string;
  dischargeDayMask : string;
  dischargingSwitch : string;
  dischargePowerSensor : string
}.

(** The card once configured: the mode and the entity ids are strings, the
    maximum output is a finite number. *)
Record Card := {
  _inverterMaxOutput : Q;
  _entities : Entities;
  _mode : string;
  _hass : option Hass
}.

(** ** Percent and kW *)

(** [Math.round(x)]: the nearest integer, halves going up. *)
Definition Math_round (x : Q) : Z := Qfloor (x + (1 # 2)).

(** [_percentToSliderKw(percent)] *)
Definition _percentToSliderKw (this : Card) (percent : Q) : Q :=
  (inject_Z (Math_round (((percent / 100) * _inverterMaxOutput this) * 2)) / 2)%Q.

(** [_sliderKwToPercent(kw)] *)
Definition _sliderKwToPercent (this : Card) (kw : Q) : Z :=
  Math_round ((kw / _inverterMaxOutput this) * 100)%Q.

(** ** The refresh decision *)

(** [[...new Set(ids)]]: the first occurrence of each id, in order. *)
Fixpoint uniqueInOrder (seen ids : list string) : list string :=
  match ids with
  | [] => []
  | id :: rest =>
      if existsb (String.eqb id) seen then uniqueInOrder seen rest
      else id :: uniqueInOrder (id :: seen) rest
  end.

Definition relevantEntityIds (this : Card) : list string :=
  let e := _entities this in
  (if negb (String.eqb (_mode this) "discharge")
   then [chargeStart e; chargeEnd e; chargeDayMask e; chargePower e;
         chargingSwitch e; chargePowerSensor e; batteryChargePowerLimit e]
   else [])
  ++
  (if negb (String.eqb (_mode this) "charge")
   then [dischargeStart e; dischargeEnd e; dischargeDayMask e;
         dischargePower e; dischargingSwitch e; dischargePowerSensor e]
   else []).

Definition uniqueIds (this : Card) : list string :=
  filter (fun id => id <> "") (uniqueInOrder [] (relevantEntityIds this)).

(** The body of the loop of [_shouldUpdate] for one id: [true] when it
    returns [true]. *)
Definition entityChanged (oldState newState : option Entity) : bool :=
  match oldState, newState with
  | None, None => false
  | None, Some _ | Some _, None => true
  | Some o, Some n =>
      if Pos.eqb (identity o) (identity n) then false
      else
        negb (String.eqb (state o) (state n))
        || negb (bool_decide (pending_write o = pending_write n))
        || negb (String.eqb (last_changed o) (last_changed n))
        || negb (String.eqb (last_updated o) (last_updated n))
  end.

(** [_shouldUpdate(newHass)] *)
Definition _shouldUpdate (this : Card) (newHass : Hass) : bool :=
  match _hass this with
  | None => true
  | Some oldHass =>
      existsb
        (fun id => entityChanged (states oldHass !! id) (states newHass !! id))
        (uniqueIds this)
  end.

(** ** Commands to the host *)

Inductive Value :=
  | VString (s : string)
  | VNumber (n : Num).

Definition valueToString (v : Value) : string :=
  match v with
  | VString s => s
  | VNumber n => String_ n
  end.

(** [callService(domain, service, { entity_id, value })] *)
Record ServiceCall := {
  domain : string;
  service : string;
  entity_id : string;
  value : option Value
}.

#[global] Instance Value_eq_dec : EqDecision Value.
Proof. solve_decision. Defined.

#[global] Instance ServiceCall_eq_dec : EqDecision ServiceCall.
Proof. solve_decision. Defined.

Definition turn_off (entityId : string) : ServiceCall :=
  {| domain := "switch"; service := "turn_off"; entity_id := entityId;
     value := None |}.

Definition turn_on (entityId : string) : ServiceCall :=
  {| domain := "switch"; service := "turn_on"; entity_id := entityId;
     value := None |}.

(** [_setEntityValue(entityId, value, domain)]: the calls that reach the
    host.  The handlers of the returned promise only log and notify. *)
Definition _setEntityValue (this : Card) (entityId : string) (v : Value)
    (dom : string) : list ServiceCall :=
  match _hass this with
  | None => []
  | Some hass =>
      if String.eqb entityId "" then []
      else match states hass !! entityId with
           | None => []
           | Some _ =>
               if String.eqb dom "switch"
               then [ {| domain := dom; service := "turn_" ++ valueToString v;
                         entity_id := entityId; value := None |} ]
               else [ {| domain := dom; service := "set_value";
                         entity_id := entityId; value := Some v |} ]
           end
  end.

(** ** Timer expiry *)

(** [e?.state], [None] when the entity is missing. *)
Definition stateOf (e : option Entity) : option string := option_map state e.

(** [_checkTimerExpiration()] *)
Definition _checkTimerExpiration (env : Env) (this : Card) : list ServiceCall :=
  match _hass this with
  | None => []
  | Some hass =>
      let currentTime := _getCurrentTime env in
      let currentTimeMinutes := _timeToMinutes (Some currentTime) in
      let e := _entities this in
      (if negb (String.eqb (_mode this) "discharge") then
         let chargingSwitch' := states hass !! chargingSwitch e in
         let chargeEndTime := states hass !! chargeEnd e in
         match stateOf chargingSwitch', stateOf chargeEndTime with
         | Some sw, Some endTime =>
             if String.eqb sw "on" && negb (String.eqb endTime "") then
               let endTimeMinutes := _timeToMinutes (Some endTime) in
               if currentTimeMinutes >=? endTimeMinutes
               then [turn_off (chargingSwitch e)]
               else []
             else []
         | _, _ => []
         end
       else [])
      ++
      (if negb (String.eqb (_mode this) "charge") then
         let dischargingSwitch' := states hass !! dischargingSwitch e in
         let dischargeEndTime := states hass !! dischargeEnd e in
         match stateOf dischargingSwitch', stateOf dischargeEndTime with
         | Some sw, Some endTime =>
             if String.eqb sw "on" && negb (String.eqb endTime "") then
               let endTimeMinutes := _timeToMinutes (Some endTime) in
               if currentTimeMinutes >=? endTimeMinutes
               then [turn_off (dischargingSwitch e)]
               else []
             else []
         | _, _ => []
         end
       else [])
  end.

(** ** The Enable buttons *)

(** What a click handler reads from the rendered panel: for each timer
    field, when the element exists, [parseInt(value, 10)] of its content;
    for each power slider, when it exists, [parseFloat(value)] of its
    position. *)
Record Dom := {
  chargeTimer : option Num;
  chargePowerSlider : option Q;
  dischargeTimer : option Num;
  dischargePowerSlider : option Q
}.

(** The statements with an effect that a handler executes, in order. *)
Inductive Action :=
  | SetEntityValue (entityId : string) (v : Value) (dom : string)
  | CallService (call : ServiceCall)
  | SetTimeout (call : ServiceCall) (delay : Z).

Inductive Outcome :=
  | Returned (actions : list Action)
  | TypeError
  | OutsideEmbedding.

(** The calls that reach the host while the handler runs. *)
Definition issued (this : Card) (actions : list Action) : list ServiceCall :=
  flat_map
    (fun a =>
       match a with
       | SetEntityValue entityId v dom => _setEntityValue this entityId v dom
       | CallService call => [call]
       | SetTimeout _ _ => []
       end)
    actions.

(** The calls left for a later turn of the event loop. *)
Definition deferred (actions : list Action) : list ServiceCall :=
  flat_map
    (fun a => match a with SetTimeout call _ => [call] | _ => [] end)
    actions.

(** The click listener of [#charging-enable]. *)
Definition chargingEnable_click (env : Env) (q : Dom) (this : Card) : Outcome :=
  match _hass this with
  | None => TypeError
  | Some hass =>
      let e := _entities this in
      let entityId := chargingSwitch e in
      let currentState := stateOf (states hass !! entityId) in
      let duration :=
        match chargeTimer q with Some d => d | None => Some 30 end in
      if bool_decide (currentState = Some "on") then
        let currentTime := _getCurrentTime env in
        match _calculateEndTime env currentTime duration with
        | Some extendedEndTime =>
            Returned [SetEntityValue (chargeEnd e) (VString extendedEndTime) "text"]
        | None => OutsideEmbedding
        end
      else
        let chargePowerKw :=
          match chargePowerSlider q with Some v => v | None => (125 # 100)%Q end in
        let chargePower' := _sliderKwToPercent this chargePowerKw in
        let startTime := _getCurrentTime env in
        match _calculateEndTime env startTime duration with
        | Some endTime =>
            let dayMask := _getTodayDayMask env in
            Returned
              [ SetEntityValue (chargeStart e) (VString startTime) "text";
                SetEntityValue (chargeEnd e) (VString endTime) "text";
                SetEntityValue (chargeDayMask e) (VNumber dayMask) "number";
                SetEntityValue (chargePower e) (VNumber (Some chargePower')) "number";
                SetTimeout (turn_on entityId) 100 ]
        | None => OutsideEmbedding
        end
  end.

(** The click listener of [#discharging-enable]. *)
Definition dischargingEnable_click (env : Env) (q : Dom) (this : Card) : Outcome :=
  match _hass this with
  | None => TypeError
  | Some hass =>
      let e := _entities this in
      let entityId := dischargingSwitch e in
      let currentState := stateOf (states hass !! entityId) in
      let duration :=
        match dischargeTimer q with Some d => d | None => Some 30 end in
      if bool_decide (currentState = Some "on") then
        let currentTime := _getCurrentTime env in
        match _calculateEndTime env currentTime duration with
        | Some extendedEndTime =>
            Returned [SetEntityValue (dischargeEnd e) (VString extendedEndTime) "text"]
        | None => OutsideEmbedding
        end
      else
        let dischargePowerKw :=
          match dischargePowerSlider q with Some v => v | None => (25 # 10)%Q end in
        let dischargePower' := _sliderKwToPercent this dischargePowerKw in
        let startTime := _getCurrentTime env in
        match _calculateEndTime env startTime duration with
        | Some endTime =>
            let dayMask := _getTodayDayMask env in
            Returned
              [ SetEntityValue (dischargeStart e) (VString startTime) "text";
                SetEntityValue (dischargeEnd e) (VString endTime) "text";
                SetEntityValue (dischargeDayMask e) (VNumber dayMask) "number";
                SetEntityValue (dischargePower e) (VNumber (Some dischargePower')) "number";
                SetTimeout (turn_on entityId) 100 ]
        | None => OutsideEmbedding
        end
  end.

(** ** Day masks *)

Definition dayKeys : list string :=
  ["monday"; "tuesday"; "wednesday"; "thursday"; "friday"; "saturday"; "sunday"].

(** The elements of an array with their indices. *)
Definition indexed {A} (l : list A) : list (A * Z) :=
  combine l (map Z.of_nat (seq 0 (length l))).

(** [_calculateDaymask(days)] *)
Definition _calculateDaymask (days : JValue) : Z :=
  fold_left
    (fun sum '(day, i) =>
       sum + (if truthy days && truthy (getProp days day) then shl32 1 i else 0))
    (indexed dayKeys) 0.

(** [_getDaysFromMask(mask)] *)
Definition _getDaysFromMask (mask : Z) : JValue :=
  JObject
    (fold_left
       (fun days '(day, i) =>
          setProp days day (JBool (negb (and32 mask (shl32 1 i) =? 0))))
       (indexed dayKeys) []).

(** ** Vocabulary of the statements *)

(** The text [HH:MM] of an hour and a minute, zero-padded. *)
Definition timeString (h m : Z) : string :=
  padStart2 (String_ (Some h)) ++ ":" ++ padStart2 (String_ (Some m)).

(** A strict 24-hour [HH:MM] text. *)
Definition strictTime (s : string) : Prop :=
  exists h m, 0 <= h < 24 /\ 0 <= m < 60 /\ s = timeString h m.

(** The text of a minute of the day. *)
Definition minuteOfDayString (n : Z) : string := timeString (n / 60) (n mod 60).

(** The local time value and the instant that [setHours(h, m, 0, 0)] gives
    to today's date. *)
Definition startLocal (env : Env) (h m : Z) : Z :=
  MakeDate (Day (LocalTime (zone env) (clock env))) (MakeTime h m 0 0).

Definition startInstant (env : Env) (h m : Z) : Z :=
  UTC (zone env) (startLocal env h m).

Definition endInstant (env : Env) (h m duration : Z) : Z :=
  startInstant env h m + duration * 60000.

(** The start and the end are instants a [Date] can hold, and the duration
    in milliseconds is an integer that a number holds exactly. *)
Definition representable (env : Env) (h m duration : Z) : Prop :=
  Z.abs (startInstant env h m) <= 8640000000000000
  /\ Z.abs (endInstant env h m duration) <= 8640000000000000
  /\ duration * 60000 <= 2 ^ 53.

(** The UTC offset in force at the end is the one the start was read
    with: no change of offset (daylight saving) in between. *)
Definition sameOffset (env : Env) (h m duration : Z) : Prop :=
  offsetAtUTC (zone env) (endInstant env h m duration)
  = offsetAtLocal (zone env) (startLocal env h m).

(** A zone with one offset all year. *)
Definition fixedZone (offset : Z) : TimeZone :=
  {| offsetAtUTC := fun _ => offset; offsetAtLocal := fun _ => offset |}.

(** Central European time around the last Sunday of March 2026: at
    01:00 UTC the offset goes from one hour to two, and local times from
    02:00 to 03:00 do not exist. *)
Definition springForward : Z := 1774746000000.

Definition berlin : TimeZone :=
  {| offsetAtUTC := fun t => if t <? springForward then 3600000 else 7200000;
     offsetAtLocal :=
       fun t => if t <? springForward + 7200000 then 3600000 else 7200000 |}.

(** Two readings of one entity id that the refresh decision does not tell
    apart: the entity is missing from both snapshots, or present in both
    with the same value, pending-write attribute and time stamps. *)
Definition sameForRefresh (a b : option Entity) : Prop :=
  match a, b with
  | None, None => True
  | Some x, Some y =>
      state x = state y
      /\ pending_write x = pending_write y
      /\ last_changed x = last_changed y
      /\ last_updated x = last_updated y
  | _, _ => False
  end.

Inductive Direction := Charge | Discharge.

(** The mode enables a direction. *)
Definition enables (mode : string) (d : Direction) : Prop :=
  match d with
  | Charge => mode <> "discharge"
  | Discharge => mode <> "charge"
  end.

Definition switchOf (e : Entities) (d : Direction) : string :=
  match d with Charge => chargingSwitch e | Discharge => dischargingSwitch e end.

Definition endTimeOf (e : Entities) (d : Direction) : string :=
  match d with Charge => chargeEnd e | Discharge => dischargeEnd e end.

(** The local time of day, in minutes since midnight. *)
Definition hourNow (env : Env) : Z :=
  (LocalTime (zone env) (clock env) / msPerHour) mod 24.

Definition minuteNow (env : Env) : Z :=
  (LocalTime (zone env) (clock env) / msPerMinute) mod 60.

Definition currentMinutes (env : Env) : Z := hourNow env * 60 + minuteNow env.

(** How many times a call occurs in a list of calls. *)
Definition occurrences (call : ServiceCall) (calls : list ServiceCall) : nat :=
  count_occ ServiceCall_eq_dec calls call.

(** One block of the check: nothing, or the switch-off of its switch. *)
Definition expiryBlock (env : Env) (hass : Hass) (switchId endId : string)
  : list ServiceCall :=
  match stateOf (states hass !! switchId), stateOf (states hass !! endId) with
  | Some sw, Some endTime =>
      if String.eqb sw "on" && negb (String.eqb endTime "") then
        if _timeToMinutes (Some (_getCurrentTime env))
           >=? _timeToMinutes (Some endTime)
        then [turn_off switchId]
        else []
      else []
  | _, _ => []
  end.

(** The duration a click reads: the timer field, or 30 without one. *)
Definition durationOf (timer : option Num) : Num :=
  match timer with Some d => d | None => Some 30 end.

(** The [set_value] call of the [text] domain. *)
Definition setText (entityId v : string) : ServiceCall :=
  {| domain := "text"; service := "set_value"; entity_id := entityId;
     value := Some (VString v) |}.

(** The host knows the entity: what [_setEntityValue] checks before it
    calls the service. *)
Definition known (hass : Hass) (entityId : string) : bool :=
  negb (String.eqb entityId "") && bool_decide (is_Some (states hass !! entityId)).

(** Percent to slider kW and back. *)
Definition roundTrip (this : Card) (percent : Q) : Z :=
  _sliderKwToPercent this (_percentToSliderKw this percent).

(** What [_deepMerge] stores under a key that the source has. *)
Definition mergedValue (targetValue sourceValue : JValue) : JValue :=
  if isArray targetValue && isArray sourceValue then sourceValue
  else if isObject targetValue && isObject sourceValue
       then _deepMerge targetValue sourceValue
       else sourceValue.

Definition hasKey (props : list (string * JValue)) (key : string) : Prop :=
  In key (map fst props).

Definition isScalar (v : JValue) : Prop :=
  match v with
  | JNull | JBool _ | JNumber _ | JString _ => True
  | _ => False
  end.

Definition mergeStep (output : list (string * JValue)) (entry : string * JValue)
  : list (string * JValue) :=
  let '(key, sourceValue) := entry in
  setProp output key (mergedValue (lookupProp output key) sourceValue).

Definition restoreStep (t s : list (string * JValue))
    (output : list (string * JValue)) (key : string) : list (string * JValue) :=
  if isUndefined (lookupProp s key) then setProp output key (lookupProp t key)
  else output.

(** A positive number: what [maxOutput] has to be. *)
Definition positiveNumber (v : JValue) : Prop :=
  match v with
  | JNumber (JFinite q) => (0 < q)%Q
  | JNumber (JInfinity negative) => negative = false
  | _ => False
  end.

(** The mode that a configuration asks for. *)
Definition modeOf (config : JValue) : JValue :=
  orElse (getProp config "mode") (JString "both").

(** ** Sample states and checked ranges *)

Definition upto (n : nat) : list Z := map Z.of_nat (seq 0 n).

Definition checkedTimeStrings : bool :=
  forallb
    (fun h =>
       forallb
         (fun m =>
            isTimeString (timeString h m)
            && bool_decide (timeFields (timeString h m) = Some (Some h, Some m)))
         (upto 60))
    (upto 24).

(** The evening of 1 November 2026 in a zone one hour ahead of UTC. *)
Definition winterEvening : Env :=
  {| clock := 1793562000000; zone := fixedZone 3600000 |}.

(** Half past midnight, local time, on 29 March 2026 in Central Europe:
    the clocks go forward at 02:00. *)
Definition springNight : Env :=
  {| clock := 1774740600000; zone := berlin |}.

Definition defaultEntities : Entities :=
  {| chargeStart := "text.saj_charge_start_time_time";
     chargeEnd := "text.saj_charge_end_time_time";
     chargeDayMask := "number.saj_charge_day_mask_input";
     chargePower := "number.saj_battery_charge_power_limit_input";
     chargingSwitch := "switch.saj_charging_control";
     chargePowerSensor := "sensor.saj_charge_power_percent";
     batteryChargePowerLimit := "sensor.saj_battery_charge_power_limit";
     dischargeStart := "text.saj_discharge1_start_time_time";
     dischargeEnd := "text.saj_discharge1_end_time_time";
     dischargePower := "number.saj_discharge1_power_percent_input";
     dischargeDayMask := "number.saj_discharge1_day_mask_input";
     dischargingSwitch := "switch.saj_discharging_control";
     dischargePowerSensor := "sensor.saj_discharge_power_percent" |}.

Definition entity (id : positive) (st : string) (attrs : list (string * AttrValue))
    (stamp : string) : Entity :=
  {| identity := id; state := st; attributes := Some (list_to_map attrs);
     last_changed := stamp; last_updated := stamp |}.

(** A snapshot: charging is on until 21:30; an unrelated lamp is off. *)
Definition snapshotA : Hass :=
  {| states :=
       list_to_map
         [ ("switch.saj_charging_control",
            entity 1 "on" [("pending_write", ABool false); ("icon", AString "a")] "t0");
           ("text.saj_charge_end_time_time", entity 2 "21:30" [] "t0");
           ("light.kitchen", entity 3 "off" [] "t0") ] |}.

(** The next snapshot: the lamp went on, and the charging switch is a new
    object with another icon, nothing else. *)
Definition snapshotB : Hass :=
  {| states :=
       list_to_map
         [ ("switch.saj_charging_control",
            entity 4 "on" [("pending_write", ABool false); ("icon", AString "b")] "t0");
           ("text.saj_charge_end_time_time", entity 2 "21:30" [] "t0");
           ("light.kitchen", entity 5 "on" [] "t1") ] |}.

Definition cardWith (mode : string) (hass : option Hass) : Card :=
  {| _inverterMaxOutput := 5; _entities := defaultEntities; _mode := mode;
     _hass := hass |}.

(** Twenty to eleven at night, local time, on 1 November 2026. *)
Definition lateEvening : Env :=
  {| clock := 1793569200000; zone := fixedZone 3600000 |}.

(** Discharging is on and its end-time entity holds a text that is no
    time. *)
Definition snapshotMalformed : Hass :=
  {| states :=
       list_to_map
         [ ("switch.saj_discharging_control", entity 1 "on" [] "t0");
           ("text.saj_discharge1_end_time_time", entity 2 "soon" [] "t0") ] |}.

(** Charging is on and its end-time entity holds the empty text. *)
Definition snapshotEmptyEnd : Hass :=
  {| states :=
       list_to_map
         [ ("switch.saj_charging_control", entity 1 "on" [] "t0");
           ("text.saj_charge_end_time_time", entity 2 "" [] "t0") ] |}.

(** Both switch roles bound to one entity. *)
Definition sharedSwitch : Entities :=
  {| chargeStart := chargeStart defaultEntities;
     chargeEnd := chargeEnd defaultEntities;
     chargeDayMask := chargeDayMask defaultEntities;
     chargePower := chargePower defaultEntities;
     chargingSwitch := "switch.saj_battery_control";
     chargePowerSensor := chargePowerSensor defaultEntities;
     batteryChargePowerLimit := batteryChargePowerLimit defaultEntities;
     dischargeStart := dischargeStart defaultEntities;
     dischargeEnd := dischargeEnd defaultEntities;
     dischargePower := dischargePower defaultEntities;
     dischargeDayMask := dischargeDayMask defaultEntities;
     dischargingSwitch := "switch.saj_battery_control";
     dischargePowerSensor := dischargePowerSensor defaultEntities |}.

(** The shared switch is on; both end times are 21:30. *)
Definition snapshotShared : Hass :=
  {| states :=
       list_to_map
         [ ("switch.saj_battery_control", entity 1 "on" [] "t0");
           ("text.saj_charge_end_time_time", entity 2 "21:30" [] "t0");
           ("text.saj_discharge1_end_time_time", entity 3 "21:30" [] "t0") ] |}.

(** Only a timer field: 45 minutes for charging, none for discharging. *)
Definition panel : Dom :=
  {| chargeTimer := Some (Some 45); chargePowerSlider := None;
     dischargeTimer := None; dischargePowerSlider := None |}.

(** A 3.6 kW inverter. *)
Definition smallInverter : Card :=
  {| _inverterMaxOutput := 36 # 10; _entities := defaultEntities;
     _mode := "both"; _hass := None |}.

Definition sampleDefaults : list (string * JValue) :=
  [ ("chargeEnd", JString "text.saj_charge_end_time_time");
    ("limits", JObject [("min", JNumber (JFinite 10)); ("max", JNumber (JFinite 100))]);
    ("days", JArray [JString "mo"; JString "tu"]);
    ("chargingSwitch", JString "switch.saj_charging_control") ].

Definition sampleOverrides : list (string * JValue) :=
  [ ("chargeEnd", JString "text.my_end");
    ("limits", JObject [("max", JNumber (JFinite 80))]);
    ("days", JArray [JString "su"]) ].

(** ** Further handlers and helpers of the card *)

(** [a | b] *)
Definition or32 (a b : Z) : Z := Z.lor (toInt32 a) (toInt32 b).

(** A day checkbox as the listener reads it: [parseInt(cb.dataset.dayIndex,
    10)] and [cb.checked]. *)
Record Checkbox := {
  dayIndex : Num;
  checked : bool
}.

(** [_renderDayCheckboxes(prefix, mask, disabled)]: the seven checkboxes
    that the markup describes, with their [data-day-index] and [checked]
    attributes. *)
Definition _renderDayCheckboxes (mask : Z) : list Checkbox :=
  let days := _getDaysFromMask mask in
  map
    (fun '(dayAbbr, i) =>
       {| dayIndex := Some i;
          checked := truthy (getProp days (nth (Z.to_nat i) dayKeys "")) |})
    (indexed ["Mo"; "Tu"; "We"; "Th"; "Fr"; "Sa"; "Su"]).

(** The mask that the [change] listener of [_setupDayListeners] builds from
    all the checkboxes of the group. *)
Definition newMaskOf (boxes : list Checkbox) : Z :=
  fold_left
    (fun newMask cb =>
       if checked cb then
         match dayIndex cb with
         | Some i => or32 newMask (shl32 1 i)
         | None => newMask
         end
       else newMask)
    boxes 0.

(** The [change] listener of [_setupDayListeners], for an event whose
    target is a day checkbox of the group. *)
Definition dayCheckbox_change (maskEntity : string) (boxes : list Checkbox)
  : list Action :=
  [SetEntityValue maskEntity (VNumber (Some (newMaskOf boxes))) "number"].

(** The 12-hour text of a time string that passed the test, as
    [_renderTimeSelects] and [updateTimeDisplay] build it; [None] outside
    the fragment read by [timeFields]. *)
Definition displayTime12 (timeValueStr : string) : option string :=
  match timeFields timeValueStr with
  | Some (Some hours, Some minutes) =>
      let hour12 :=
        if hours =? 0 then 12 else if hours >? 12 then hours - 12 else hours in
      let ampm := if hours >=? 12 then "PM" else "AM" in
      Some (String_ (Some hour12) ++ ":" ++ padStart2 (String_ (Some minutes))
            ++ " " ++ ampm)
  | _ => None
  end.

(** What [_renderTimeSelects] puts in the markup: the text shown, and the
    value and the [disabled] attribute of the hidden time input. *)
Record TimeField := {
  displayTime : string;
  inputValue : string;
  inputDisabled : bool
}.

(** [_renderTimeSelects(prefix, startTime, endTime, power, disabled)]; the
    valid end time always has a 12-hour text. *)
Definition _renderTimeSelects (endTime : string) (disabled : bool) : TimeField :=
  let validEndTime := if isTimeString endTime then endTime else "00:00" in
  {| displayTime :=
       match displayTime12 validEndTime with Some d => d | None => "" end;
     inputValue := validEndTime;
     inputDisabled := disabled |}.

(** How the [change] listener of the end-time input ends: the writes it
    asked for, the value it leaves in the input, and the text it set on the
    display, if it set one. *)
Inductive FieldChange :=
  | FieldChanged (actions : list Action) (fieldValue : string)
      (display : option string)
  | FieldTypeError.

(** The [change] listener that [_setupTimeListeners] puts on the end-time
    input; [timeValue] tells whether the display element was found. *)
Definition endTime_change (this : Card) (endEntity : string) (timeValue : bool)
    (value : string) : FieldChange :=
  let updateTimeDisplay (timeValueStr : string) : option string :=
    if timeValue && isTimeString timeValueStr then displayTime12 timeValueStr
    else None in
  if isTimeString value then
    FieldChanged [SetEntityValue endEntity (VString value) "text"] value
      (updateTimeDisplay value)
  else
    match _hass this with
    | None => FieldTypeError
    | Some hass =>
        match stateOf (states hass !! endEntity) with
        | Some prevState =>
            if negb (String.eqb prevState "") && isTimeString prevState
            then FieldChanged [] prevState (updateTimeDisplay prevState)
            else FieldChanged [] "00:00" (updateTimeDisplay "00:00")
        | None => FieldChanged [] "00:00" (updateTimeDisplay "00:00")
        end
    end.

(** The [change] listener of [#charge-power-slider]; [kwValue] is
    [parseFloat] of the slider position. *)
Definition chargePowerSlider_change (this : Card) (kwValue : Q) : list Action :=
  let percentValue := _sliderKwToPercent this kwValue in
  [SetEntityValue (chargePower (_entities this))
     (VNumber (Some (percentValue * 10))) "number"].

(** The [change] listener of [#discharge-power-slider]. *)
Definition dischargePowerSlider_change (this : Card) (kwValue : Q) : list Action :=
  let percentValue := _sliderKwToPercent this kwValue in
  [SetEntityValue (dischargePower (_entities this))
     (VNumber (Some percentValue)) "number"].

(** [getCardSize()] *)
Definition getCardSize (this : Card) : Z :=
  let size := 1 in
  let size := if negb (String.eqb (_mode this) "discharge") then size + 3 else size in
  let size := if negb (String.eqb (_mode this) "charge") then size + 3 else size in
  Z.max 1 (Z.min 15 size).

(** A range input as [_updateSingleSliderStyle] reads it: [parseFloat] of
    its [min], [max] and [value]; [None] is [NaN]. *)
Record Slider := {
  slider_min : option Q;
  slider_max : option Q;
  slider_value : option Q
}.

(** [parseFloat(x) || d] *)
Definition floatOr (x : option Q) (d : Q) : Q :=
  match x with
  | Some q => if Qeq_bool q 0 then d else q
  | None => d
  end.

(** [_updateSingleSliderStyle(slider)]: the percentage it stores in
    [--value-percent]; nothing without a slider. *)
Definition _updateSingleSliderStyle (slider : option Slider) : option Q :=
  match slider with
  | None => None
  | Some s =>
      let min := floatOr (slider_min s) 0 in
      let max := floatOr (slider_max s) 100 in
      let value := floatOr (slider_value s) 0 in
      Some (if Qeq_bool max min then 0
            else ((value - min) / (max - min)) * 100)%Q
  end.

(** ** Vocabulary of the further statements *)

(** The number of days from the Monday before, or on, the local date. *)
Definition daysSinceMonday (env : Env) : Z :=
  (Day (LocalTime (zone env) (clock env)) + 3) mod 7.

(** No text occurs twice. *)
Fixpoint distinctb (l : list string) : bool :=
  match l with
  | [] => true
  | x :: rest => negb (existsb (String.eqb x) rest) && distinctb rest
  end.

(** The 12-hour text of each minute of the day. *)
Definition clockText (n : Z) : string :=
  displayTime (_renderTimeSelects (minuteOfDayString n) false).

(** The hour of the 12-hour clock. *)
Definition hour12Of (h : Z) : Z := (h + 11) mod 12 + 1.

Definition ampmOf (h : Z) : string := if h <? 12 then "AM" else "PM".

(** The start and the end of the interval are instants that a [Date]
    holds. *)
Definition datesInRange (env : Env) (h m duration : Z) : Prop :=
  Z.abs (startInstant env h m) <= 8640000000000000
  /\ Z.abs (endInstant env h m duration) <= 8640000000000000.

Definition startTimeOf (e : Entities) (d : Direction) : string :=
  match d with Charge => chargeStart e | Discharge => dischargeStart e end.

Definition dayMaskOf (e : Entities) (d : Direction) : string :=
  match d with Charge => chargeDayMask e | Discharge => dischargeDayMask e end.

Definition powerOf (e : Entities) (d : Direction) : string :=
  match d with Charge => chargePower e | Discharge => dischargePower e end.

Definition timerOf (q : Dom) (d : Direction) : option Num :=
  match d with Charge => chargeTimer q | Discharge => dischargeTimer q end.

(** The slider position a click reads: the slider, or the direction's
    default without one. *)
Definition sliderKwOf (q : Dom) (d : Direction) : Q :=
  match d with
  | Charge => match chargePowerSlider q with Some v => v | None => 125 # 100 end
  | Discharge => match dischargePowerSlider q with Some v => v | None => 25 # 10 end
  end.

Definition enable_click (env : Env) (q : Dom) (this : Card) (d : Direction)
  : Outcome :=
  match d with
  | Charge => chargingEnable_click env q this
  | Discharge => dischargingEnable_click env q this
  end.

Definition powerSlider_change (this : Card) (d : Direction) (kwValue : Q)
  : list Action :=
  match d with
  | Charge => chargePowerSlider_change this kwValue
  | Discharge => dischargePowerSlider_change this kwValue
  end.

(** The [set_value] call of the [number] domain. *)
Definition setNumber (entityId : string) (n : Num) : ServiceCall :=
  {| domain := "number"; service := "set_value"; entity_id := entityId;
     value := Some (VNumber n) |}.

(** The duration in milliseconds is an integer that a number holds
    exactly. *)
Definition exactDuration (duration : Num) : Prop :=
  match duration with
  | Some d => Z.abs (d * 60000) <= 2 ^ 53
  | None => True
  end.

(** The duration field was cleared. *)
Definition panelCleared : Dom :=
  {| chargeTimer := Some None; chargePowerSlider := None;
     dischargeTimer := None; dischargePowerSlider := None |}.

(** Two readings of one entity id that the refresh decision tells apart:
    the entity is in one snapshot only, or the two snapshots hold different
    objects that differ in value, pending-write attribute or a time
    stamp. *)
Definition differsForRefresh (a b : option Entity) : Prop :=
  match a, b with
  | None, None => False
  | Some x, Some y =>
      identity x <> identity y
      /\ (state x <> state y
          \/ pending_write x <> pending_write y
          \/ last_changed x <> last_changed y
          \/ last_updated x <> last_updated y)
  | _, _ => True
  end.

(** ** The host pushes a state *)

(** The focused element of the shadow tree, as [_isUserInteracting] reads
    it: its [tagName] and, for an input, its [type]. *)
Record Element := {
  tagName : string;
  type_ : string
}.

Definition lowerChar (c : ascii) : ascii :=
  if charBetween "A" "Z" c then ascii_of_N (N_of_ascii c + 32) else c.

(** [s.toLowerCase()] on ASCII text. *)
Fixpoint toLowerCase (s : string) : string :=
  match s with
  | EmptyString => EmptyString
  | String c rest => String (lowerChar c) (toLowerCase rest)
  end.

(** [_isUserInteracting()]; the shadow root exists from the constructor
    on. *)
Definition _isUserInteracting (activeElement : option Element) : bool :=
  match activeElement with
  | None => false
  | Some el =>
      if String.eqb (tagName el) "INPUT" then
        let type := toLowerCase (type_ el) in
        String.eqb type "time" || String.eqb type "range"
      else false
  end.

(** The element: the configured card, the three time stamps of [set hass]
    and the content of the shadow root.  The markup is built from the
    fields of the card, so [innerHTML] records the card it was built from;
    [None] is the empty string. *)
Record Widget := {
  self : Card;
  _lastForceUpdate : Z;
  _lastDebugLog : Z;
  _lastTimerCheck : Z;
  innerHTML : option Card
}.

(** What a call does that can be seen from outside: the expiry check with
    the calls it sent to the host, and the writing of the markup. *)
Inductive Event :=
  | ExpiryCheck (calls : list ServiceCall)
  | Render (shown : Card).

(** [_renderCard()]; the focused element does not change while a call
    runs. *)
Definition _renderCard (activeElement : option Element) (w : Widget)
  : Widget * list Event :=
  match _hass (self w) with
  | None => (w, [])
  | Some _ =>
      if _isUserInteracting activeElement then (w, [])
      else
        ({| self := self w;
            _lastForceUpdate := _lastForceUpdate w;
            _lastDebugLog := _lastDebugLog w;
            _lastTimerCheck := _lastTimerCheck w;
            innerHTML := Some (self w) |},
         [Render (self w)])
  end.

(** [this._hass = hass] *)
Definition withHass (this : Card) (hass : Hass) : Card :=
  {| _inverterMaxOutput := _inverterMaxOutput this;
     _entities := _entities this;
     _mode := _mode this;
     _hass := Some hass |}.

(** [!last || (now - last) > period] *)
Definition due (last now period : Z) : bool :=
  (last =? 0) || (now - last >? period).

(** [set hass(hass)]; [None] is a falsy argument.  The clock does not
    advance while the call runs. *)
Definition set_hass (env : Env) (activeElement : option Element) (w : Widget)
    (hass : option Hass) : Widget * list Event :=
  match hass with
  | None => (w, [])
  | Some hass =>
      let shouldUpdate := _shouldUpdate (self w) hass in
      let userInteracting := _isUserInteracting activeElement in
      let this := withHass (self w) hass in
      let now := clock env in
      let lastDebugLog :=
        if due (_lastDebugLog w) now 10000 then now else _lastDebugLog w in
      let '(lastTimerCheck, checks) :=
        if due (_lastTimerCheck w) now 60000
        then (now, [ExpiryCheck (_checkTimerExpiration env this)])
        else (_lastTimerCheck w, []) in
      if due (_lastForceUpdate w) now 30000 then
        let w :=
          {| self := this; _lastForceUpdate := now;
             _lastDebugLog := lastDebugLog; _lastTimerCheck := lastTimerCheck;
             innerHTML := innerHTML w |} in
        if negb userInteracting then
          let '(w, renders) := _renderCard activeElement w in
          (w, (checks ++ renders)%list)
        else (w, checks)
      else
        let w :=
          {| self := this; _lastForceUpdate := _lastForceUpdate w;
             _lastDebugLog := lastDebugLog; _lastTimerCheck := lastTimerCheck;
             innerHTML := innerHTML w |} in
        if (shouldUpdate || negb (bool_decide (is_Some (innerHTML w))))
           && negb userInteracting
        then
          let '(w, renders) := _renderCard activeElement w in
          (w, (checks ++ renders)%list)
        else (w, checks)
  end.

(** The element as the constructor leaves it, once configured. *)
Definition constructed (this : Card) : Widget :=
  {| self :=
       {| _inverterMaxOutput := _inverterMaxOutput this;
          _entities := _entities this;
          _mode := _mode this;
          _hass := None |};
     _lastForceUpdate := 0; _lastDebugLog := 0; _lastTimerCheck := 0;
     innerHTML := None |}.

(** One push of the host: the instant, the focused element and the
    state. *)
Record Push := {
  pushEnv : Env;
  pushFocus : option Element;
  pushHass : option Hass
}.

(** The pushes of a session, one after the other: what each one did, with
    its instant. *)
Fixpoint run (w : Widget) (pushes : list Push) : list (Z * list Event) :=
  match pushes with
  | [] => []
  | p :: rest =>
      let '(w', events) := set_hass (pushEnv p) (pushFocus p) w (pushHass p) in
      (clock (pushEnv p), events) :: run w' rest
  end.

Definition isExpiryCheck (e : Event) : bool :=
  match e with ExpiryCheck _ => true | Render _ => false end.

Definition isRender (e : Event) : bool :=
  match e with Render _ => true | ExpiryCheck _ => false end.

(** The instants of the pushes that ran the expiry check. *)
Definition checkTimes (trace : list (Z * list Event)) : list Z :=
  map fst (List.filter (fun '(_, events) => existsb isExpiryCheck events) trace).

(** The instants of the pushes that wrote the markup. *)
Definition renderTimes (trace : list (Z * list Event)) : list Z :=
  map fst (List.filter (fun '(_, events) => existsb isRender events) trace).

(** The widget after the pushes. *)
Fixpoint after (w : Widget) (pushes : list Push) : Widget :=
  match pushes with
  | [] => w
  | p :: rest => after (fst (set_hass (pushEnv p) (pushFocus p) w (pushHass p))) rest
  end.

(** [!!this.shadowRoot.innerHTML] *)
Definition painted (w : Widget) : bool := bool_decide (is_Some (innerHTML w)).

(** The condition under which a push writes the markup. *)
Definition rendersOn (env : Env) (activeElement : option Element) (w : Widget)
    (hass : Hass) : bool :=
  negb (_isUserInteracting activeElement)
  && (due (_lastForceUpdate w) (clock env) 30000
      || _shouldUpdate (self w) hass
      || negb (painted w)).

(** A focused time input. *)
Definition timeInput : Element := {| tagName := "INPUT"; type_ := "time" |}.

(** Any two of the instants, in the order of the list: the later is more
    than [gap] after the earlier. *)
Fixpoint spaced (gap : Z) (times : list Z) : Prop :=
  match times with
  | [] => True
  | t :: rest => Forall (fun u => gap < u - t) rest /\ spaced gap rest
  end.

(** A card that was painted from [snapshotA] a second after its last
    forced refresh. *)
Definition paintedWidget : Widget :=
  {| self := cardWith "both" (Some snapshotA);
     _lastForceUpdate := 1793562000000;
     _lastDebugLog := 1793562000000;
     _lastTimerCheck := 1793562000000;
     innerHTML := Some (cardWith "both" (Some snapshotA)) |}.

(** [snapshotB] with a new end of charging. *)
Definition snapshotC : Hass :=
  {| states := <["text.saj_charge_end_time_time" := entity 6 "22:00" [] "t1"]>
                 (states snapshotB) |}.

Definition at_ (t : Z) : Env := {| clock := t; zone := fixedZone 3600000 |}.

(** Three pushes of [snapshotA] to a new element: at an instant, half a
    minute later and a minute and a second later. *)
Definition threePushes : list Push :=
  [ {| pushEnv := at_ 1793562000000; pushFocus := None; pushHass := Some snapshotA |};
    {| pushEnv := at_ 1793562030000; pushFocus := None; pushHass := Some snapshotA |};
    {| pushEnv := at_ 1793562061000; pushFocus := None; pushHass := Some snapshotA |} ].

(** ** The sections of the card *)

(** White space and line terminators, among the ASCII characters. *)
Definition isStrWhiteSpace (c : ascii) : bool :=
  let n := N_of_ascii c in
  ((9 <=? n) && (n <=? 13))%N || (n =? 32)%N.

Fixpoint trimStart (s : string) : string :=
  match s with
  | String c rest => if isStrWhiteSpace c then trimStart rest else s
  | EmptyString => s
  end.

Fixpoint isAscii (s : string) : bool :=
  match s with
  | String c rest => (N_of_ascii c <? 128)%N && isAscii rest
  | EmptyString => true
  end.

(** The value of a digit of the radix, if the character is one. *)
Definition radixDigit (radix : Z) (c : ascii) : option Z :=
  let v :=
    if isDigit c then Some (digitValue c)
    else if charBetween "a" "f" c then Some (Z.of_N (N_of_ascii c) - 87)
    else if charBetween "A" "F" c then Some (Z.of_N (N_of_ascii c) - 55)
    else None in
  match v with
  | Some d => if d <? radix then Some d else None
  | None => None
  end.

(** The value of the longest prefix of digits; [None] without a digit. *)
Fixpoint digitPrefix (radix : Z) (acc : option Z) (s : string) : option Z :=
  match s with
  | String c rest =>
      match radixDigit radix c with
      | Some d =>
          digitPrefix radix
            (Some (radix * match acc with Some a => a | None => 0 end + d)) rest
      | None => acc
      end
  | EmptyString => acc
  end.

(** [parseInt(s)], without a radix, on the ASCII strings whose integer is
    at most [2 ^ 53]; [None] outside, [Some None] is [NaN].  The card uses
    the result through [|| 0] only, so [-0] is read as [0]. *)
Definition parseInt (s : string) : option Num :=
  if negb (isAscii s) then None
  else
    let str := trimStart s in
    let '(sign, str) :=
      match str with
      | String "-" rest => (-1, rest)
      | String "+" rest => (1, rest)
      | _ => (1, str)
      end in
    let '(R, str) :=
      match str with
      | String "0" (String "x" rest) | String "0" (String "X" rest) => (16, rest)
      | _ => (10, str)
      end in
    match digitPrefix R None str with
    | None => Some None
    | Some mathInt =>
        if mathInt <=? 2 ^ 53 then Some (Some (sign * mathInt)) else None
    end.

(** [n || 0] *)
Definition orZero (n : Num) : Z :=
  match n with Some z => z | None => 0 end.

(** A range input of the markup. *)
Record Range := {
  range_min : Q;
  range_max : Q;
  range_step : Q;
  range_value : Q;
  range_disabled : bool
}.

(** The controls of a section, as far as they depend on the host state:
    the power slider, the label and the [disabled] attribute of the Enable
    button, the [disabled] attribute of the Disable button, the status text
    and the end-time field.  The current-power text and the timer input
    are left out. *)
Record Controls := {
  powerSlider : Range;
  enableLabel : string;
  enableDisabled : bool;
  disableDisabled : bool;
  statusText : string;
  endTimeField : TimeField
}.

(** The [html] of a section; [error] is [true] for [CardError]. *)
Inductive Section :=
  | CardError (heading : string) (check : string)
  | SectionControls (controls : Controls).

(** [[...].filter(Boolean).join(', ') || 'configuration'] over the roles
    [!entity && id]. *)
Definition missingIds (roles : list (option Entity * string)) : string :=
  let missing :=
    String.concat ", "
      (List.filter (fun id => negb (String.eqb id ""))
         (map snd (List.filter (fun '(e, _) => negb (bool_decide (is_Some e))) roles))) in
  if String.eqb missing "" then "configuration" else missing.

(** The controls of both sections, from the percent of the power entity
    and the switch. *)
Definition controlsOf (this : Card) (powerPercent : Z) (sw end_ : Entity)
  : Controls :=
  let enabled := String.eqb (state sw) "on" in
  let pendingWrite := bool_decide (pending_write sw = Some (ABool true)) in
  let powerKw := _percentToSliderKw this (inject_Z powerPercent) in
  let minKw := _percentToSliderKw this 10 in
  let maxKw := _percentToSliderKw this 100 in
  {| powerSlider :=
       {| range_min := minKw; range_max := maxKw; range_step := 1 # 2;
          range_value := powerKw; range_disabled := pendingWrite |};
     enableLabel := if enabled then "Extend" else "Enable";
     enableDisabled := pendingWrite;
     disableDisabled := pendingWrite || negb enabled;
     statusText :=
       if pendingWrite then "Wait for Modbus Transfer"
       else if enabled then "Active" else "Inactive";
     endTimeField := _renderTimeSelects (state end_) pendingWrite |}.

(** [_renderChargingSection()]; [None] outside the embedding of
    [parseInt]. *)
Definition _renderChargingSection (this : Card) (hass : Hass) : option Section :=
  let s := _entities this in
  let es := states hass in
  match es !! chargeStart s, es !! chargeEnd s, es !! chargeDayMask s,
        es !! chargePower s, es !! chargingSwitch s with
  | Some start, Some end_, Some mask, Some power, Some sw =>
      match parseInt (state power) with
      | None => None
      | Some n =>
          let chargePower := Math_round (inject_Z (orZero n) / 10) in
          Some (SectionControls (controlsOf this chargePower sw end_))
      end
  | start, end_, mask, power, sw =>
      Some (CardError "Charging Entities Missing"
              (missingIds [ (start, chargeStart s); (end_, chargeEnd s);
                            (mask, chargeDayMask s); (power, chargePower s);
                            (sw, chargingSwitch s) ]))
  end.

(** [_renderDischargingSection()] *)
Definition _renderDischargingSection (this : Card) (hass : Hass) : option Section :=
  let s := _entities this in
  let es := states hass in
  match es !! dischargeStart s, es !! dischargeEnd s, es !! dischargeDayMask s,
        es !! dischargePower s, es !! dischargingSwitch s with
  | Some start, Some end_, Some mask, Some power, Some sw =>
      match parseInt (state power) with
      | None => None
      | Some n =>
          let dischargePower := orZero n in
          Some (SectionControls (controlsOf this dischargePower sw end_))
      end
  | start, end_, mask, power, sw =>
      Some (CardError "Discharging Entities Missing"
              (missingIds [ (start, dischargeStart s); (end_, dischargeEnd s);
                            (mask, dischargeDayMask s); (power, dischargePower s);
                            (sw, dischargingSwitch s) ]))
  end.

(** The section of a direction. *)
Definition sectionOf (this : Card) (hass : Hass) (d : Direction) : option Section :=
  match d with
  | Charge => _renderChargingSection this hass
  | Discharge => _renderDischargingSection this hass
  end.

(** The directions [_renderCard] renders, in its order: discharging first. *)
Definition renderedDirections (this : Card) : list Direction :=
  ((if negb (String.eqb (_mode this) "charge") then [Discharge] else [])
   ++ (if negb (String.eqb (_mode this) "discharge") then [Charge] else []))%list.

(** The five entities a section cannot do without. *)
Definition requiredOf (e : Entities) (d : Direction) : list string :=
  [startTimeOf e d; endTimeOf e d; dayMaskOf e d; powerOf e d; switchOf e d].

(** The state the host shows for a number it was given: its decimal text,
    with or without a fraction part. *)
Definition numberText (n : Z) (fraction : bool) : string :=
  (String_ (Some n) ++ (if fraction then ".0" else ""))%string.

(** The host state with the state text of one entity replaced. *)
Definition withState (hass : Hass) (entityId : string) (text : string) : Hass :=
  {| states :=
       match states hass !! entityId with
       | Some e =>
           <[entityId := {| identity := identity e; state := text;
                            attributes := attributes e;
                            last_changed := last_changed e;
                            last_updated := last_updated e |}]> (states hass)
       | None => states hass
       end |}.

Definition largeInverter : Card :=
  {| _inverterMaxOutput := 100; _entities := defaultEntities;
     _mode := "both"; _hass := None |}.

(** [parseInt] reads the number back from its text. *)
Definition readsBack (n : Z) (fraction : bool) : bool :=
  match parseInt (numberText n fraction) with
  | Some (Some v) => v =? n
  | _ => false
  end.

(** The percent a section shows for the integer read from the power
    entity: the charge entity counts tenths of a percent. *)
Definition shownPercent (d : Direction) (n : Num) : Z :=
  match d with
  | Charge => Math_round (inject_Z (orZero n) / 10)
  | Discharge => orZero n
  end.

(** A snapshot with all the entities of both sections; both switches are
    off. *)
Definition snapshotFull : Hass :=
  {| states :=
       list_to_map
         [ ("text.saj_charge_start_time_time", entity 1 "08:00" [] "t0");
           ("text.saj_charge_end_time_time", entity 2 "09:00" [] "t0");
           ("number.saj_charge_day_mask_input", entity 3 "127" [] "t0");
           ("number.saj_battery_charge_power_limit_input", entity 4 "500" [] "t0");
           ("switch.saj_charging_control", entity 5 "off" [] "t0");
           ("text.saj_discharge1_start_time_time", entity 6 "18:00" [] "t0");
           ("text.saj_discharge1_end_time_time", entity 7 "19:00" [] "t0");
           ("number.saj_discharge1_day_mask_input", entity 8 "127" [] "t0");
           ("number.saj_discharge1_power_percent_input", entity 9 "50" [] "t0");
           ("switch.saj_discharging_control", entity 10 "off" [] "t0") ] |}.

(** The timers at 45 minutes and both sliders at 2.5 kW. *)
Definition panelFull : Dom :=
  {| chargeTimer := Some (Some 45); chargePowerSlider := Some (5 # 2);
     dischargeTimer := Some (Some 45); dischargePowerSlider := Some (5 # 2) |}.

(** The slider position a click reads, when the slider is there. *)
Definition sliderOf (q : Dom) (d : Direction) : option Q :=
  match d with
  | Charge => chargePowerSlider q
  | Discharge => dischargePowerSlider q
  end.

(** Two readings of one entity id that a section shows alike: missing
    from both snapshots, or present in both with the same state and
    pending-write attribute. *)
Definition shownAlike (a b : option Entity) : Prop :=
  match a, b with
  | None, None => True
  | Some x, Some y => state x = state y /\ pending_write x = pending_write y
  | _, _ => False
  end.

(** The next snapshot after [snapshotFull]: a lamp appeared, and the
    charging switch is a new object with the same content. *)
Definition snapshotNext : Hass :=
  {| states :=
       <["light.kitchen" := entity 11 "on" [] "t1"]>
         (<["switch.saj_charging_control" := entity 12 "off" [] "t0"]>
            (states snapshotFull)) |}.

(** ** Vocabulary of the statements on configuration *)

(** The keys after [output[key] = v]. *)
Definition addKey (keys : list string) (key : string) : list string :=
  if existsb (String.eqb key) keys then keys else (keys ++ [key])%list.

(** The configured entity id of a role. *)
Definition roleOf (entities : JValue) (role : string) : JValue :=
  getProp entities role.

(** What [setConfig] stores for a valid configuration. *)
Definition configured (this : Config.Card) (config : JValue) : Config.Card :=
  {| Config._inverterMaxOutput :=
       orElse (getProp config "maxOutput") (JNumber (JFinite 5));
     Config._entities :=
       _deepMerge DEFAULT_ENTITIES (orElse (getProp config "entities") (JObject []));
     Config._mode := modeOf config;
     Config._hass := Config._hass this;
     Config._debug :=
       match getProp config "debug" with JBool true => true | _ => false end |}.

(** The configuration is accepted. *)
Definition acceptable (config : JValue) : Prop :=
  truthy config = true
  /\ Config.validMode (modeOf config) = true
  /\ (truthy (getProp config "maxOutput") = false
      \/ positiveNumber (getProp config "maxOutput")).

(** A configuration that moves the end of charging to another entity. *)
Definition overrideConfig : JValue :=
  JObject [ ("mode", JString "charge");
            ("entities", JObject [("chargeEnd", JString "text.my_end")]) ].

(** * Properties *)

(** ** Ranges checked by evaluation *)

Lemma upto_spec (n : nat) (z : Z) : 0 <= z < Z.of_nat n -> In z (upto n).
Proof.
  intros Hz. unfold upto. apply in_map_iff. exists (Z.to_nat z). split.
  - lia.
  - apply in_seq. lia.
Qed.

Lemma forallb_upto (P : Z -> bool) (n : nat) :
  forallb P (upto n) = true -> forall z, 0 <= z < Z.of_nat n -> P z = true.
Proof.
  intros HP z Hz. rewrite forallb_forall in HP. apply HP, upto_spec, Hz.
Qed.

(** ** Day masks *)

Lemma daymask_roundtrip_checked :
  forallb (fun m => _calculateDaymask (_getDaysFromMask m) =? m) (upto 128) = true.
Proof. vm_compute. reflexivity. Qed.

(** C6.  For every integer mask [m] from 0 to 127, the weekday selection
    that [_getDaysFromMask] builds from [m] is converted back to exactly
    [m] by [_calculateDaymask]. *)
Theorem daymask_roundtrip (m : Z) :
  0 <= m <= 127 -> _calculateDaymask (_getDaysFromMask m) = m.
Proof.
  intros Hm. apply Z.eqb_eq.
  apply (forallb_upto _ 128 daymask_roundtrip_checked). lia.
Qed.

Lemma daymask_roundtrip_witness :
  0 <= 85 <= 127 /\ _calculateDaymask (_getDaysFromMask 85) = 85.
Proof. split; [lia | apply (daymask_roundtrip 85); lia]. Defined.

(** ** Time strings *)

Lemma isDigit_cases (c : ascii) :
  isDigit c = true ->
  In c ["0"; "1"; "2"; "3"; "4"; "5"; "6"; "7"; "8"; "9"]%char.
Proof.
  unfold isDigit, charBetween. intros H.
  apply andb_true_iff in H as [Hlo Hhi].
  apply N.leb_le in Hlo, Hhi. simpl in Hlo, Hhi.
  rewrite <- (ascii_N_embedding c).
  assert (Hn : In (N_of_ascii c) [48; 49; 50; 51; 52; 53; 54; 55; 56; 57]%N)
    by (simpl; lia).
  apply (in_map ascii_of_N) in Hn. exact Hn.
Qed.

Lemma isDigit_value (c : ascii) : isDigit c = true -> 0 <= digitValue c <= 9.
Proof.
  unfold isDigit, charBetween, digitValue. intros H.
  apply andb_true_iff in H as [Hlo Hhi].
  apply N.leb_le in Hlo, Hhi. simpl in Hlo, Hhi. lia.
Qed.

(** Two digits are the padded text of their decimal value. *)
Lemma two_digits (c1 c2 : ascii) :
  isDigit c1 = true -> isDigit c2 = true ->
  padStart2 (String_ (Some (10 * digitValue c1 + digitValue c2)))
  = String c1 (String c2 "").
Proof.
  intros H1 H2. apply isDigit_cases in H1, H2. simpl in H1, H2.
  repeat (destruct H1 as [<- | H1]); try contradiction;
    repeat (destruct H2 as [<- | H2]); try contradiction; reflexivity.
Qed.

Lemma charBetween_value (lo hi c : ascii) :
  charBetween lo hi c = true ->
  Z.of_N (N_of_ascii lo) - 48 <= digitValue c <= Z.of_N (N_of_ascii hi) - 48.
Proof.
  unfold charBetween, digitValue. intros H.
  apply andb_true_iff in H as [Hlo Hhi].
  apply N.leb_le in Hlo, Hhi. lia.
Qed.

Lemma charBetween_digit (lo hi c : ascii) :
  isDigit lo = true -> isDigit hi = true ->
  charBetween lo hi c = true -> isDigit c = true.
Proof.
  unfold isDigit, charBetween. intros Hlo Hhi H.
  apply andb_true_iff in Hlo as [Hlo _]. apply andb_true_iff in Hhi as [_ Hhi].
  apply andb_true_iff in H as [H1 H2].
  apply N.leb_le in Hlo, Hhi, H1, H2.
  apply andb_true_iff. split; apply N.leb_le; lia.
Qed.

(** A string that passes the test of the card is a strict [HH:MM] text. *)
Lemma isTimeString_strict (s : string) : isTimeString s = true -> strictTime s.
Proof.
  destruct s as [|h1 [|h2 [|sep [|m1 [|m2 [|? ?]]]]]]; simpl; try discriminate.
  intros H.
  apply andb_true_iff in H as [H Hm2].
  apply andb_true_iff in H as [H Hm1].
  apply andb_true_iff in H as [Hh Hsep].
  apply Ascii.eqb_eq in Hsep. subst sep.
  assert (Hd1 : isDigit m1 = true) by (eapply charBetween_digit; [| | exact Hm1]; reflexivity).
  pose proof (charBetween_value _ _ _ Hm1) as Hv1. simpl in Hv1.
  pose proof (isDigit_value _ Hm2) as Hv2.
  assert (Hhours : isDigit h1 = true /\ isDigit h2 = true
                   /\ 0 <= 10 * digitValue h1 + digitValue h2 < 24).
  { apply orb_true_iff in Hh as [Hh | Hh]; apply andb_true_iff in Hh as [Ha Hb].
    - pose proof (charBetween_value _ _ _ Ha) as Hva. simpl in Hva.
      pose proof (isDigit_value _ Hb).
      split; [eapply charBetween_digit; [| | exact Ha]; reflexivity |].
      split; [exact Hb | lia].
    - apply Ascii.eqb_eq in Ha. subst h1.
      pose proof (charBetween_value _ _ _ Hb) as Hvb. simpl in Hvb.
      split; [reflexivity |].
      split; [eapply charBetween_digit; [| | exact Hb]; reflexivity |].
      change (digitValue "2") with 2. lia. }
  destruct Hhours as (Hd0 & Hd0' & Hrange).
  exists (10 * digitValue h1 + digitValue h2), (10 * digitValue m1 + digitValue m2).
  split; [exact Hrange |]. split; [lia |].
  unfold timeString. rewrite !two_digits by assumption. reflexivity.
Qed.

Lemma checkedTimeStrings_true : checkedTimeStrings = true.
Proof. vm_compute. reflexivity. Qed.

Lemma timeString_checked (h m : Z) :
  0 <= h < 24 -> 0 <= m < 60 ->
  isTimeString (timeString h m) = true
  /\ timeFields (timeString h m) = Some (Some h, Some m).
Proof.
  intros Hh Hm.
  pose proof (forallb_upto _ 24 checkedTimeStrings_true h ltac:(lia)) as H.
  cbv beta in H.
  pose proof (forallb_upto _ 60 H m ltac:(lia)) as H'.
  cbv beta in H'. apply andb_true_iff in H' as [H1 H2].
  apply bool_decide_eq_true in H2. split; assumption.
Qed.

Lemma timeString_nonempty (h m : Z) : String.eqb (timeString h m) "" = false.
Proof.
  unfold timeString.
  destruct (padStart2 (String_ (Some h))) eqn:E; [| reflexivity].
  unfold padStart2 in E.
  destruct (String_ (Some h)) as [|? [|? ?]]; discriminate.
Qed.

(** The minutes of a strict time text. *)
Lemma timeToMinutes_timeString (h m : Z) :
  0 <= h < 24 -> 0 <= m < 60 ->
  _timeToMinutes (Some (timeString h m)) = h * 60 + m.
Proof.
  intros Hh Hm. destruct (timeString_checked h m Hh Hm) as [Htest Hfields].
  unfold _timeToMinutes.
  rewrite timeString_nonempty, Htest, Hfields. reflexivity.
Qed.

Lemma timeToMinutes_not_time (s : string) :
  isTimeString s = false -> _timeToMinutes (Some s) = 0.
Proof.
  intros H. unfold _timeToMinutes. rewrite H.
  rewrite orb_true_r. reflexivity.
Qed.

Lemma timeToMinutes_range (t : option string) : 0 <= _timeToMinutes t <= 1439.
Proof.
  destruct t as [s|]; [| simpl; lia].
  destruct (isTimeString s) eqn:Htest.
  - destruct (isTimeString_strict s Htest) as (h & m & Hh & Hm & ->).
    rewrite timeToMinutes_timeString by assumption. lia.
  - rewrite timeToMinutes_not_time by assumption. lia.
Qed.

Lemma timeToMinutes_not_strict (s : string) :
  ~ strictTime s -> _timeToMinutes (Some s) = 0.
Proof.
  intros Hs. apply timeToMinutes_not_time.
  destruct (isTimeString s) eqn:Htest; [| reflexivity].
  exfalso. apply Hs, isTimeString_strict, Htest.
Qed.

(** C10.  [_timeToMinutes] returns an integer from 0 to 1439 on every
    input; on a strict 24-hour [HH:MM] text it returns hours * 60 +
    minutes; on every other string, the empty one included, and on [null]
    it returns 0. *)
Theorem timeToMinutes_total_bounded :
  (forall t : option string, 0 <= _timeToMinutes t <= 1439)
  /\ (forall h m : Z, 0 <= h < 24 -> 0 <= m < 60 ->
        _timeToMinutes (Some (timeString h m)) = h * 60 + m)
  /\ (forall s : string, ~ strictTime s -> _timeToMinutes (Some s) = 0)
  /\ _timeToMinutes None = 0
  /\ _timeToMinutes (Some "") = 0.
Proof.
  split; [exact timeToMinutes_range |].
  split; [exact timeToMinutes_timeString |].
  split; [exact timeToMinutes_not_strict |].
  split; reflexivity.
Qed.

Lemma not_strict_2460 : ~ strictTime "24:60".
Proof.
  intros (h & m & Hh & Hm & Heq).
  destruct (timeString_checked h m Hh Hm) as [Htest _].
  rewrite <- Heq in Htest. discriminate.
Qed.

Lemma timeToMinutes_total_bounded_witness :
  _timeToMinutes (Some (timeString 23 59)) = 1439
  /\ _timeToMinutes (Some "24:60") = 0.
Proof.
  destruct timeToMinutes_total_bounded as (_ & Hvalid & Hother & _).
  split.
  - apply (Hvalid 23 59); lia.
  - apply (Hother "24:60"), not_strict_2460.
Defined.

(** ** End time *)

Lemma TimeClip_in_range (t : Z) :
  Z.abs t <= 8640000000000000 -> TimeClip t = Some t.
Proof.
  intros H. unfold TimeClip.
  destruct (Z.leb_spec (Z.abs t) 8640000000000000); [reflexivity | lia].
Qed.

(** The hour and the minute of a local time value that lies [x] minutes
    after a midnight. *)
Lemma clock_fields (day x : Z) :
  0 <= x ->
  ((day * msPerDay + x * msPerMinute) / msPerHour) mod 24 = (x mod 1440) / 60
  /\ ((day * msPerDay + x * msPerMinute) / msPerMinute) mod 60 = (x mod 1440) mod 60.
Proof.
  intros Hx. unfold msPerDay, msPerHour, msPerMinute.
  split; Z.div_mod_to_equations; lia.
Qed.

Lemma calculateEndTime_value (env : Env) (h m duration : Z) :
  0 <= h < 24 -> 0 <= m < 60 -> 0 <= duration ->
  representable env h m duration ->
  sameOffset env h m duration ->
  _calculateEndTime env (timeString h m) (Some duration)
  = Some (minuteOfDayString ((h * 60 + m + duration) mod 1440)).
Proof.
  intros Hh Hm Hd (Hstart & Hend & _) Hoff.
  destruct (timeString_checked h m Hh Hm) as [_ Hfields].
  unfold _calculateEndTime. rewrite Hfields.
  unfold setHours, Date_now.
  fold (startLocal env h m). fold (startInstant env h m).
  rewrite (TimeClip_in_range _ Hstart).
  unfold getTime, numAdd, numMul, Date_of.
  fold (endInstant env h m duration).
  rewrite (TimeClip_in_range _ Hend).
  unfold getHours, getMinutes, LocalTime.
  unfold sameOffset in Hoff. rewrite Hoff.
  assert (Hlocal : endInstant env h m duration
                   + offsetAtLocal (zone env) (startLocal env h m)
                   = Day (LocalTime (zone env) (clock env)) * msPerDay
                     + (h * 60 + m + duration) * msPerMinute).
  { unfold endInstant, startInstant, UTC, startLocal, MakeDate, MakeTime,
      msPerDay, msPerHour, msPerMinute. lia. }
  rewrite Hlocal.
  destruct (clock_fields (Day (LocalTime (zone env) (clock env)))
              (h * 60 + m + duration) ltac:(lia)) as [-> ->].
  reflexivity.
Qed.

(** C7, as amended.  [_calculateEndTime] adds the duration to the start
    time and wraps across midnight, provided the UTC offset of the local
    zone is the same at the end as at the start and the dates involved
    are representable: then ["23:50"] plus 20 minutes is ["00:10"],
    ["08:00"] plus 30 minutes is ["08:30"], and for every valid [HH:MM]
    start and non-negative integer duration the result is the start plus
    the duration modulo 24 hours, as zero-padded [HH:MM]. *)
Theorem calculateEndTime_wraps (env : Env) :
  (representable env 23 50 20 -> sameOffset env 23 50 20 ->
   _calculateEndTime env "23:50" (Some 20) = Some "00:10")
  /\ (representable env 8 0 30 -> sameOffset env 8 0 30 ->
      _calculateEndTime env "08:00" (Some 30) = Some "08:30")
  /\ (forall h m duration : Z,
        0 <= h < 24 -> 0 <= m < 60 -> 0 <= duration ->
        representable env h m duration ->
        sameOffset env h m duration ->
        _calculateEndTime env (timeString h m) (Some duration)
        = Some (minuteOfDayString ((h * 60 + m + duration) mod 1440))).
Proof.
  split; [| split].
  - intros Hr Ho.
    exact (calculateEndTime_value env 23 50 20 ltac:(lia) ltac:(lia) ltac:(lia) Hr Ho).
  - intros Hr Ho.
    exact (calculateEndTime_value env 8 0 30 ltac:(lia) ltac:(lia) ltac:(lia) Hr Ho).
  - apply calculateEndTime_value.
Qed.

Lemma winterEvening_representable (h m duration : Z) :
  0 <= h < 24 -> 0 <= m < 60 -> 0 <= duration <= 1440 ->
  representable winterEvening h m duration.
Proof.
  intros Hh Hm Hd.
  unfold representable, endInstant, startInstant, UTC, startLocal, MakeDate,
    MakeTime, Day, LocalTime, msPerDay, msPerHour, msPerMinute. simpl.
  change (2 ^ 53) with 9007199254740992.
  Z.div_mod_to_equations. lia.
Qed.

Lemma calculateEndTime_wraps_witness :
  _calculateEndTime winterEvening "23:50" (Some 20) = Some "00:10"
  /\ _calculateEndTime winterEvening "08:00" (Some 30) = Some "08:30"
  /\ _calculateEndTime winterEvening (timeString 22 15) (Some 200)
     = Some (minuteOfDayString ((22 * 60 + 15 + 200) mod 1440)).
Proof.
  destruct (calculateEndTime_wraps winterEvening) as (H1 & H2 & H3).
  split; [| split].
  - apply H1; [apply winterEvening_representable; lia | reflexivity].
  - apply H2; [apply winterEvening_representable; lia | reflexivity].
  - apply H3; [lia | lia | lia | apply winterEvening_representable; lia | reflexivity].
Defined.

(** C7, counterexample.  On the night the clocks go forward, twenty
    minutes after ["01:50"] is ["03:10"], not the ["02:10"] that adding
    modulo 24 hours gives; the dates involved are all representable.  And
    in a zone without any change of offset, a duration of 10^12 minutes
    leaves the range of [Date]: the result is ["NaN:NaN"]. *)
Lemma calculateEndTime_daylight_saving :
  ((0 <= 1 < 24 /\ 0 <= 50 < 60 /\ 0 <= 20)
   /\ representable springNight 1 50 20
   /\ timeString 1 50 = "01:50"
   /\ minuteOfDayString ((1 * 60 + 50 + 20) mod 1440) = "02:10"
   /\ _calculateEndTime springNight "01:50" (Some 20) = Some "03:10"
   /\ _calculateEndTime springNight (timeString 1 50) (Some 20)
      <> Some (minuteOfDayString ((1 * 60 + 50 + 20) mod 1440)))
  /\ (sameOffset winterEvening 8 0 1000000000000
      /\ timeString 8 0 = "08:00"
      /\ _calculateEndTime winterEvening "08:00" (Some 1000000000000)
         = Some "NaN:NaN").
Proof.
  split.
  - split; [lia |]. split.
    { unfold representable. vm_compute. repeat split; discriminate. }
    split; [reflexivity |]. split; [reflexivity |]. split; [reflexivity |].
    vm_compute. discriminate.
  - split; [reflexivity |]. split; reflexivity.
Qed.

(** ** The refresh decision *)

Lemma uniqueInOrder_In (seen ids : list string) (id : string) :
  In id (uniqueInOrder seen ids) -> In id ids.
Proof.
  revert seen. induction ids as [|x rest IH]; intros seen; simpl; [tauto |].
  destruct (existsb (String.eqb x) seen).
  - intros H. right. exact (IH _ H).
  - intros [H | H]; [left; exact H | right; exact (IH _ H)].
Qed.

Lemma uniqueIds_relevant (this : Card) (id : string) :
  In id (uniqueIds this) -> In id (relevantEntityIds this).
Proof.
  unfold uniqueIds. intros H.
  apply list_elem_of_In, list_elem_of_filter in H as [_ H].
  apply list_elem_of_In in H. exact (uniqueInOrder_In _ _ _ H).
Qed.

Lemma entityChanged_same (a b : option Entity) :
  sameForRefresh a b -> entityChanged a b = false.
Proof.
  destruct a as [x|], b as [y|]; simpl; try tauto.
  intros (Hs & Hp & Hc & Hu).
  destruct (Pos.eqb (identity x) (identity y)); [reflexivity |].
  rewrite Hs, Hp, Hc, Hu, !String.eqb_refl.
  rewrite bool_decide_eq_true_2 by reflexivity. reflexivity.
Qed.

(** C1.  Let A be the snapshot the card holds and B the next one.  If
    every entity of the active mode's relevant set (the charge roles when
    the mode is not ['discharge'], the discharge roles when it is not
    ['charge']) is missing from both or has in both the same value,
    pending-write attribute, last-changed and last-updated stamps, then
    [_shouldUpdate] returns [false], whatever else differs between A and
    B. *)
Theorem shouldUpdate_ignores_irrelevant (this : Card) (A B : Hass) :
  _hass this = Some A ->
  (forall id, In id (relevantEntityIds this) ->
              sameForRefresh (states A !! id) (states B !! id)) ->
  _shouldUpdate this B = false.
Proof.
  intros HA Hsame. unfold _shouldUpdate. rewrite HA.
  apply not_true_is_false. intros Hex.
  apply existsb_exists in Hex as (id & Hin & Hchanged).
  rewrite (entityChanged_same _ _ (Hsame id (uniqueIds_relevant _ _ Hin)))
    in Hchanged.
  discriminate.
Qed.

Lemma shouldUpdate_ignores_irrelevant_witness :
  states snapshotA !! "light.kitchen" <> states snapshotB !! "light.kitchen"
  /\ _shouldUpdate (cardWith "both" (Some snapshotA)) snapshotB = false.
Proof.
  split; [vm_compute; discriminate |].
  apply (shouldUpdate_ignores_irrelevant _ snapshotA snapshotB); [reflexivity |].
  intros id Hin. simpl in Hin.
  repeat (destruct Hin as [<- | Hin]); try contradiction;
    vm_compute; repeat split.
Defined.

(** A change of value of a relevant entity does ask for a refresh. *)
Example shouldUpdate_on_value_change :
  _shouldUpdate
    (cardWith "both" (Some snapshotA))
    {| states := <["text.saj_charge_end_time_time" := entity 6 "22:00" [] "t1"]>
                   (states snapshotB) |}
  = true.
Proof. vm_compute. reflexivity. Qed.

(** ** Timer expiry *)

Lemma getCurrentTime_timeString (env : Env) :
  _getCurrentTime env = timeString (hourNow env) (minuteNow env).
Proof. reflexivity. Qed.

Lemma hourNow_range (env : Env) : 0 <= hourNow env < 24.
Proof. unfold hourNow. apply Z.mod_pos_bound. lia. Qed.

Lemma minuteNow_range (env : Env) : 0 <= minuteNow env < 60.
Proof. unfold minuteNow. apply Z.mod_pos_bound. lia. Qed.

Lemma timeToMinutes_now (env : Env) :
  _timeToMinutes (Some (_getCurrentTime env)) = currentMinutes env.
Proof.
  rewrite getCurrentTime_timeString.
  apply timeToMinutes_timeString; [apply hourNow_range | apply minuteNow_range].
Qed.

Lemma eqb_neq_string (a b : string) : a <> b -> String.eqb a b = false.
Proof. intros H. apply String.eqb_neq, H. Qed.

Lemma turn_off_inj (a b : string) : turn_off a = turn_off b -> a = b.
Proof. intros H. injection H. tauto. Qed.

Lemma checkTimerExpiration_blocks (env : Env) (this : Card) (hass : Hass) :
  _hass this = Some hass ->
  _checkTimerExpiration env this
  = ((if negb (String.eqb (_mode this) "discharge")
      then expiryBlock env hass (chargingSwitch (_entities this))
             (chargeEnd (_entities this))
      else [])
     ++ (if negb (String.eqb (_mode this) "charge")
         then expiryBlock env hass (dischargingSwitch (_entities this))
                (dischargeEnd (_entities this))
         else []))%list.
Proof. intros H. unfold _checkTimerExpiration. rewrite H. reflexivity. Qed.

Lemma expiryBlock_other (env : Env) (hass : Hass) (switchId endId other : string) :
  switchId <> other ->
  occurrences (turn_off other) (expiryBlock env hass switchId endId) = 0%nat.
Proof.
  intros Hne. unfold expiryBlock, occurrences.
  destruct (stateOf (states hass !! switchId)); [| reflexivity].
  destruct (stateOf (states hass !! endId)); [| reflexivity].
  destruct (_ && _); [| reflexivity].
  destruct (_ >=? _); [| reflexivity].
  apply count_occ_not_In. intros [H | []]. apply Hne, turn_off_inj, H.
Qed.

Lemma expiryBlock_expired (env : Env) (hass : Hass) (switchId endId : string)
    (sw endEntity : Entity) :
  states hass !! switchId = Some sw -> state sw = "on" ->
  states hass !! endId = Some endEntity -> state endEntity <> "" ->
  _timeToMinutes (Some (state endEntity)) <= currentMinutes env ->
  expiryBlock env hass switchId endId = [turn_off switchId].
Proof.
  intros Hsw Hon Hend Hne Hle. unfold expiryBlock.
  rewrite Hsw, Hend. cbn [stateOf option_map].
  rewrite Hon, (eqb_neq_string _ _ Hne).
  change (String.eqb "on" "on") with true. cbn [andb negb].
  rewrite timeToMinutes_now.
  destruct (Z.geb_spec (currentMinutes env) (_timeToMinutes (Some (state endEntity))));
    [reflexivity | lia].
Qed.

Lemma checkTimerExpiration_expired (env : Env) (this : Card) (hass : Hass)
    (d : Direction) (sw endEntity : Entity) :
  _hass this = Some hass ->
  enables (_mode this) d ->
  chargingSwitch (_entities this) <> dischargingSwitch (_entities this) ->
  states hass !! switchOf (_entities this) d = Some sw -> state sw = "on" ->
  states hass !! endTimeOf (_entities this) d = Some endEntity ->
  state endEntity <> "" ->
  _timeToMinutes (Some (state endEntity)) <= currentMinutes env ->
  occurrences (turn_off (switchOf (_entities this) d))
              (_checkTimerExpiration env this) = 1%nat.
Proof.
  intros Hhass Hmode Hdistinct Hsw Hon Hend Hne Hle.
  rewrite (checkTimerExpiration_blocks env this hass Hhass).
  assert (Hone : forall switchId endId otherSwitch otherEnd (b : bool),
             expiryBlock env hass switchId endId = [turn_off switchId] ->
             otherSwitch <> switchId ->
             occurrences (turn_off switchId)
               (expiryBlock env hass switchId endId
                ++ (if b then expiryBlock env hass otherSwitch otherEnd else []))
             = 1%nat
             /\ occurrences (turn_off switchId)
                  ((if b then expiryBlock env hass otherSwitch otherEnd else [])
                   ++ expiryBlock env hass switchId endId)
                = 1%nat).
  { intros switchId endId otherSwitch otherEnd b Hblock Hother.
    pose proof (expiryBlock_other env hass otherSwitch otherEnd switchId Hother)
      as Hzero.
    unfold occurrences in *. rewrite !count_occ_app, Hblock.
    rewrite count_occ_cons_eq by reflexivity. cbn [count_occ].
    destruct b; [rewrite Hzero |]; split; reflexivity. }
  destruct d; cbn [enables switchOf endTimeOf] in *;
    rewrite (eqb_neq_string _ _ Hmode); cbn [negb].
  - apply Hone; [| congruence].
    apply (expiryBlock_expired env hass _ _ sw endEntity); assumption.
  - apply Hone; [| congruence].
    apply (expiryBlock_expired env hass _ _ sw endEntity); assumption.
Qed.

(** C2, as amended.  For each direction that the mode enables, when the
    expiry check runs with that direction's switch in state ['on'] and its
    end-time entity present with a non-empty state, and the two
    directions' switches are distinct entities: if the end time, parsed as
    minutes since midnight (a malformed string as minute 0), is less than
    or equal to the current minute of the day, exactly one switch-off
    command is issued for that direction's switch; in particular every
    non-empty malformed end-time string forces immediate expiry. *)
Theorem checkTimerExpiration_switches_off (env : Env) (this : Card)
    (hass : Hass) (d : Direction) (sw endEntity : Entity) :
  _hass this = Some hass ->
  enables (_mode this) d ->
  chargingSwitch (_entities this) <> dischargingSwitch (_entities this) ->
  states hass !! switchOf (_entities this) d = Some sw -> state sw = "on" ->
  states hass !! endTimeOf (_entities this) d = Some endEntity ->
  state endEntity <> "" ->
  (_timeToMinutes (Some (state endEntity)) <= currentMinutes env ->
   occurrences (turn_off (switchOf (_entities this) d))
               (_checkTimerExpiration env this) = 1%nat)
  /\ (~ strictTime (state endEntity) ->
      occurrences (turn_off (switchOf (_entities this) d))
                  (_checkTimerExpiration env this) = 1%nat).
Proof.
  intros Hhass Hmode Hdistinct Hsw Hon Hend Hne. split.
  - intros Hle. eapply checkTimerExpiration_expired; eassumption.
  - intros Hbad. eapply checkTimerExpiration_expired; try eassumption.
    rewrite (timeToMinutes_not_strict _ Hbad).
    unfold currentMinutes.
    pose proof (hourNow_range env). pose proof (minuteNow_range env). lia.
Qed.

Lemma strictTime_isTimeString (s : string) : strictTime s -> isTimeString s = true.
Proof.
  intros (h & m & Hh & Hm & ->). apply (timeString_checked h m Hh Hm).
Qed.

Lemma checkTimerExpiration_switches_off_witness :
  occurrences (turn_off "switch.saj_charging_control")
    (_checkTimerExpiration lateEvening (cardWith "both" (Some snapshotA))) = 1%nat
  /\ occurrences (turn_off "switch.saj_discharging_control")
       (_checkTimerExpiration winterEvening
          (cardWith "discharge" (Some snapshotMalformed))) = 1%nat.
Proof.
  split.
  - destruct (checkTimerExpiration_switches_off lateEvening
                (cardWith "both" (Some snapshotA)) snapshotA Charge
                (entity 1 "on" [("pending_write", ABool false); ("icon", AString "a")] "t0")
                (entity 2 "21:30" [] "t0")
                ltac:(reflexivity) ltac:(discriminate) ltac:(discriminate)
                ltac:(reflexivity) ltac:(reflexivity) ltac:(reflexivity)
                ltac:(discriminate)) as [H _].
    apply H. vm_compute. discriminate.
  - destruct (checkTimerExpiration_switches_off winterEvening
                (cardWith "discharge" (Some snapshotMalformed)) snapshotMalformed
                Discharge (entity 1 "on" [] "t0") (entity 2 "soon" [] "t0")
                ltac:(reflexivity) ltac:(discriminate) ltac:(discriminate)
                ltac:(reflexivity) ltac:(reflexivity) ltac:(reflexivity)
                ltac:(discriminate)) as [_ H].
    apply H. intros Hs. apply strictTime_isTimeString in Hs. discriminate.
Defined.

(** C2, counterexample.  Charging is enabled by the mode, its switch is
    ['on'], its end-time entity is present and holds the empty string:
    a malformed end time, read as minute 0, which is not after the
    current minute.  The check issues no command at all.  And when both
    switch roles name one entity that is ['on'], with both end times in
    the past, that switch receives two switch-off commands. *)
Lemma checkTimerExpiration_empty_end_time :
  (enables "both" Charge
   /\ stateOf (states snapshotEmptyEnd !! chargingSwitch defaultEntities) = Some "on"
   /\ stateOf (states snapshotEmptyEnd !! chargeEnd defaultEntities) = Some ""
   /\ ~ strictTime ""
   /\ _timeToMinutes (Some "") <= currentMinutes lateEvening
   /\ _checkTimerExpiration lateEvening (cardWith "both" (Some snapshotEmptyEnd)) = []
   /\ occurrences (turn_off (chargingSwitch defaultEntities))
        (_checkTimerExpiration lateEvening (cardWith "both" (Some snapshotEmptyEnd)))
      <> 1%nat)
  /\ (enables "both" Charge
      /\ stateOf (states snapshotShared !! chargingSwitch sharedSwitch) = Some "on"
      /\ stateOf (states snapshotShared !! chargeEnd sharedSwitch) = Some "21:30"
      /\ _timeToMinutes (Some "21:30") <= currentMinutes lateEvening
      /\ occurrences (turn_off (chargingSwitch sharedSwitch))
           (_checkTimerExpiration lateEvening
              {| _inverterMaxOutput := 5; _entities := sharedSwitch;
                 _mode := "both"; _hass := Some snapshotShared |})
         = 2%nat).
Proof.
  split.
  - split; [discriminate |]. split; [reflexivity |]. split; [reflexivity |].
    split; [intros H; apply strictTime_isTimeString in H; discriminate |].
    split; [vm_compute; discriminate |].
    split; [reflexivity |]. vm_compute. discriminate.
  - split; [discriminate |]. split; [reflexivity |]. split; [reflexivity |].
    split; [vm_compute; discriminate | reflexivity].
Qed.

(** ** The Enable buttons *)

(** The time of day is always a text that [_calculateEndTime] reads. *)
Lemma calculateEndTime_now (env : Env) (duration : Num) :
  exists v, _calculateEndTime env (_getCurrentTime env) duration = Some v.
Proof.
  rewrite getCurrentTime_timeString. unfold _calculateEndTime.
  destruct (timeString_checked _ _ (hourNow_range env) (minuteNow_range env))
    as [_ ->].
  eexists. reflexivity.
Qed.

Lemma setEntityValue_text (this : Card) (hass : Hass) (entityId v : string) :
  _hass this = Some hass ->
  _setEntityValue this entityId (VString v) "text"
  = if known hass entityId then [setText entityId v] else [].
Proof.
  intros H. unfold _setEntityValue, known. rewrite H.
  destruct (String.eqb entityId ""); [reflexivity |].
  destruct (states hass !! entityId) as [x|]; reflexivity.
Qed.



(** ** Percent and kW *)

Lemma Qfloor_unique (x : Q) (z : Z) :
  (inject_Z z <= x)%Q -> (x < inject_Z z + 1)%Q -> Qfloor x = z.
Proof.
  intros Hlo Hhi.
  assert (H1 : z <= Qfloor x).
  { rewrite <- (Qfloor_Z z). apply Qfloor_resp_le, Hlo. }
  assert (H2 : Qfloor x < z + 1).
  { rewrite Zlt_Qlt. eapply Qle_lt_trans; [apply Qfloor_le |].
    rewrite inject_Z_plus. exact Hhi. }
  lia.
Qed.

Lemma round_bounds (x : Q) :
  (inject_Z (Math_round x) - (1 # 2) <= x)%Q
  /\ (x < inject_Z (Math_round x) + (1 # 2))%Q.
Proof.
  unfold Math_round.
  pose proof (Qfloor_le (x + (1 # 2))) as Hlo.
  pose proof (Qlt_floor (x + (1 # 2))) as Hhi.
  rewrite inject_Z_plus in Hhi. change (inject_Z 1) with 1%Q in Hhi.
  split; lra.
Qed.

Lemma round_unique (x : Q) (z : Z) :
  (inject_Z z - (1 # 2) <= x)%Q -> (x < inject_Z z + (1 # 2))%Q ->
  Math_round x = z.
Proof.
  intros Hlo Hhi. unfold Math_round. apply Qfloor_unique; lra.
Qed.

Lemma round_inject (z : Z) : Math_round (inject_Z z) = z.
Proof. apply round_unique; lra. Qed.


Lemma round_comp (x y : Q) : (x == y)%Q -> Math_round x = Math_round y.
Proof. intros H. unfold Math_round. apply Qfloor_comp. rewrite H. reflexivity. Qed.

(** Half-kW steps [j] and whole percents [q]: the percent of a step, sent
    to its step and back, is that percent again. *)
Lemma round_trip_fixed (M : Q) (j : Z) :
  (0 < M)%Q ->
  let q := Math_round (50 * inject_Z j / M) in
  let j' := Math_round (inject_Z q * M / 50) in
  Math_round (50 * inject_Z j' / M) = q.
Proof.
  intros HM q j'.
  assert (HM0 : ~ (M == 0)%Q) by lra.
  destruct (round_bounds (50 * inject_Z j / M)) as [Hq1 Hq2]. fold q in Hq1, Hq2.
  destruct (round_bounds (inject_Z q * M / 50)) as [Hj1 Hj2]. fold j' in Hj1, Hj2.
  assert (HX : (50 * inject_Z j / M * M == 50 * inject_Z j)%Q) by (field; exact HM0).
  assert (HY : (inject_Z q * M / 50 * 50 == inject_Z q * M)%Q) by field.
  set (X := (50 * inject_Z j / M)%Q) in *.
  set (Y := (inject_Z q * M / 50)%Q) in *.
  destruct (Qlt_le_dec M 50) as [Hsmall | Hbig].
  - (* the kW step is finer than one percent: j is recovered *)
    assert (Hj : j' = j).
    { apply round_unique; fold Y; nra. }
    rewrite Hj. fold X. reflexivity.
  - destruct (Qeq_dec M 50) as [Heq | Hne].
    + assert (Hj : j' = q).
      { apply round_unique; fold Y; nra. }
      assert (Hq : q = j).
      { apply round_unique; fold X; nra. }
      rewrite Hj, Hq. fold X. fold q. exact Hq.
    + assert (HZ : (50 * inject_Z j' / M * M == 50 * inject_Z j')%Q) by (field; exact HM0).
      apply round_unique; set (Z' := (50 * inject_Z j' / M)%Q) in *; nra.
Qed.

Lemma roundTrip_steps (this : Card) (percent : Q) :
  (0 < _inverterMaxOutput this)%Q ->
  roundTrip this percent
  = Math_round
      (50 * inject_Z (Math_round (percent * _inverterMaxOutput this / 50))
       / _inverterMaxOutput this).
Proof.
  intros HM. unfold roundTrip, _sliderKwToPercent, _percentToSliderKw.
  assert (HM0 : ~ (_inverterMaxOutput this == 0)%Q) by lra.
  set (M := _inverterMaxOutput this) in *.
  rewrite (round_comp (percent / 100 * M * 2) (percent * M / 50)) by field.
  apply round_comp. field. exact HM0.
Qed.



(** ** Deep merge *)

Lemma lookupProp_setProp_eq props key v : lookupProp (setProp props key v) key = v.
Proof.
  induction props as [|[k w] rest IH]; simpl.
  - rewrite String.eqb_refl. reflexivity.
  - destruct (String.eqb k key) eqn:E; simpl; rewrite E; [reflexivity | exact IH].
Qed.

Lemma lookupProp_setProp_ne props key key' v :
  key <> key' -> lookupProp (setProp props key v) key' = lookupProp props key'.
Proof.
  intros Hne. induction props as [|[k w] rest IH]; simpl.
  - rewrite (proj2 (String.eqb_neq _ _) Hne). reflexivity.
  - destruct (String.eqb k key) eqn:E; simpl.
    + apply String.eqb_eq in E. subst k.
      rewrite (proj2 (String.eqb_neq _ _) Hne). reflexivity.
    + destruct (String.eqb k key'); [reflexivity | exact IH].
Qed.

Lemma hasKey_setProp props key key' v :
  hasKey props key' -> hasKey (setProp props key v) key'.
Proof.
  unfold hasKey. induction props as [|[k w] rest IH]; simpl; [tauto |].
  destruct (String.eqb k key); simpl; tauto.
Qed.

Lemma lookupProp_In props key v :
  List.NoDup (map fst props) -> In (key, v) props -> lookupProp props key = v.
Proof.
  induction props as [|[k w] rest IH]; simpl; [tauto |].
  intros Hnd [Heq | Hin].
  - injection Heq as -> ->. rewrite String.eqb_refl. reflexivity.
  - apply NoDup_cons_iff in Hnd as [Hk Hnd].
    destruct (String.eqb k key) eqn:E; [| exact (IH Hnd Hin)].
    apply String.eqb_eq in E. subst k. exfalso. apply Hk.
    apply in_map_iff. exists (key, v). split; [reflexivity | exact Hin].
Qed.

Lemma lookupProp_absent props key :
  ~ hasKey props key -> lookupProp props key = JUndefined.
Proof.
  unfold hasKey. induction props as [|[k w] rest IH]; simpl; [reflexivity |].
  intros H. destruct (String.eqb k key) eqn:E.
  - apply String.eqb_eq in E. tauto.
  - apply IH. tauto.
Qed.

Lemma mergeStep_unfold (s output : list (string * JValue)) :
  fold_left
    (fun output '(key, sourceValue) =>
       let targetValue := lookupProp output key in
       if isArray targetValue && isArray sourceValue
       then setProp output key sourceValue
       else if isObject targetValue && isObject sourceValue
            then setProp output key (_deepMerge targetValue sourceValue)
            else setProp output key sourceValue)
    s output
  = fold_left mergeStep s output.
Proof.
  revert output. induction s as [|[key sourceValue] rest IH]; intros output.
  - reflexivity.
  - cbn [fold_left]. rewrite IH. f_equal.
    unfold mergeStep, mergedValue. cbn zeta.
    destruct (isArray (lookupProp output key) && isArray sourceValue);
      [reflexivity |].
    destruct (isObject (lookupProp output key) && isObject sourceValue);
      reflexivity.
Qed.

Lemma deepMerge_objects (t s : list (string * JValue)) :
  _deepMerge (JObject t) (JObject s)
  = JObject (fold_left (restoreStep t s) (map fst t) (fold_left mergeStep s t)).
Proof.
  cbn [_deepMerge]. cbn zeta. rewrite mergeStep_unfold. reflexivity.
Qed.

(** The first loop: a key of the source receives the merged value, the
    other keys keep what they had. *)
Lemma mergeLoop_lookup (s output : list (string * JValue)) (key : string) :
  List.NoDup (map fst s) ->
  (forall sv, In (key, sv) s ->
     lookupProp (fold_left mergeStep s output) key
     = mergedValue (lookupProp output key) sv)
  /\ (~ hasKey s key ->
      lookupProp (fold_left mergeStep s output) key = lookupProp output key).
Proof.
  revert output. induction s as [|[k v] rest IH]; intros output Hnd.
  - split; [intros sv [] | reflexivity].
  - cbn [map fst] in Hnd. apply NoDup_cons_iff in Hnd as [Hk Hnd].
    cbn [fold_left]. destruct (IH (mergeStep output (k, v)) Hnd) as [IHin IHout].
    split.
    + intros sv [Heq | Hin].
      * injection Heq as -> ->. rewrite IHout by exact Hk.
        apply lookupProp_setProp_eq.
      * rewrite (IHin sv Hin). unfold mergeStep.
        rewrite lookupProp_setProp_ne; [reflexivity |].
        intros ->. apply Hk. apply in_map_iff. exists (key, sv). tauto.
    + intros Hout. unfold hasKey in Hout. cbn [map fst] in Hout.
      rewrite IHout by (unfold hasKey; simpl in Hout; tauto).
      unfold mergeStep. apply lookupProp_setProp_ne. simpl in Hout. tauto.
Qed.

Lemma mergeLoop_hasKey (s output : list (string * JValue)) (key : string) :
  hasKey output key -> hasKey (fold_left mergeStep s output) key.
Proof.
  revert output. induction s as [|[k v] rest IH]; intros output H; [exact H |].
  cbn [fold_left]. apply IH. unfold mergeStep. apply hasKey_setProp, H.
Qed.

(** The second loop: a key of the target for which the source gives
    [undefined] receives the target's value again; the rest is kept. *)
Lemma restoreLoop_lookup (t s : list (string * JValue)) (keys : list string)
    (output : list (string * JValue)) (key : string) :
  lookupProp (fold_left (restoreStep t s) keys output) key
  = if bool_decide (key ∈ keys) && isUndefined (lookupProp s key)
    then lookupProp t key
    else lookupProp output key.
Proof.
  revert output. induction keys as [|k rest IH]; intros output.
  - reflexivity.
  - cbn [fold_left]. rewrite IH.
    destruct (bool_decide (key ∈ rest)) eqn:Hrest.
    + apply bool_decide_eq_true in Hrest.
      rewrite bool_decide_eq_true_2 by (apply elem_of_cons; right; exact Hrest).
      cbn [andb].
      destruct (isUndefined (lookupProp s key)) eqn:Hundef; [reflexivity |].
      unfold restoreStep.
      destruct (isUndefined (lookupProp s k)) eqn:Hk; [| reflexivity].
      apply lookupProp_setProp_ne. intros ->. congruence.
    + apply bool_decide_eq_false in Hrest. cbn [andb].
      destruct (String.eqb k key) eqn:E.
      * apply String.eqb_eq in E. subst k.
        rewrite bool_decide_eq_true_2 by (apply elem_of_cons; left; reflexivity).
        cbn [andb].
        unfold restoreStep.
        destruct (isUndefined (lookupProp s key)); [| reflexivity].
        apply lookupProp_setProp_eq.
      * apply String.eqb_neq in E.
        rewrite bool_decide_eq_false_2
          by (intros H; apply elem_of_cons in H as [? | ?]; [congruence | tauto]).
        cbn [andb].
        unfold restoreStep.
        destruct (isUndefined (lookupProp s k)); [| reflexivity].
        apply lookupProp_setProp_ne, E.
Qed.

Lemma restoreLoop_hasKey (t s : list (string * JValue)) (keys : list string)
    (output : list (string * JValue)) (key : string) :
  hasKey output key -> hasKey (fold_left (restoreStep t s) keys output) key.
Proof.
  revert output. induction keys as [|k rest IH]; intros output H; [exact H |].
  cbn [fold_left]. apply IH. unfold restoreStep.
  destruct (isUndefined (lookupProp s k)); [apply hasKey_setProp |]; exact H.
Qed.

Lemma isUndefined_false (v : JValue) : v <> JUndefined -> isUndefined v = false.
Proof. destruct v; simpl; congruence. Qed.

(** The value of every key of the merged object. *)
Lemma deepMerge_lookup (t s : list (string * JValue)) (key : string) :
  List.NoDup (map fst s) ->
  exists output,
    _deepMerge (JObject t) (JObject s) = JObject output
    /\ (forall sv, In (key, sv) s -> sv <> JUndefined ->
          lookupProp output key = mergedValue (lookupProp t key) sv)
    /\ (~ hasKey s key -> lookupProp output key = lookupProp t key)
    /\ (hasKey t key -> hasKey output key).
Proof.
  intros Hnd. eexists. split; [apply deepMerge_objects |].
  destruct (mergeLoop_lookup s t key Hnd) as [Hin Hout].
  split; [| split].
  - intros sv Hsv Hdef. rewrite restoreLoop_lookup.
    rewrite (lookupProp_In s key sv Hnd Hsv), (isUndefined_false sv Hdef).
    rewrite andb_false_r. exact (Hin sv Hsv).
  - intros Habsent. rewrite restoreLoop_lookup.
    destruct (_ && _); [reflexivity | exact (Hout Habsent)].
  - intros Hkey. apply restoreLoop_hasKey, mergeLoop_hasKey, Hkey.
Qed.

(** An override that is [undefined] leaves the default in place: the
    second loop of [_deepMerge] puts it back. *)
Example deepMerge_undefined_override :
  _deepMerge (JObject [("chargeEnd", JString "text.end")])
             (JObject [("chargeEnd", JUndefined)])
  = JObject [("chargeEnd", JString "text.end")].
Proof. reflexivity. Qed.



(** ** Configuration *)

Lemma not_positive_invalid (v : JValue) :
  truthy v = true -> ~ positiveNumber v -> Config.invalidMaxOutput v = true.
Proof.
  destruct v as [| |b|[|negative|q]|s|items|props]; simpl; try reflexivity;
    try discriminate.
  - intros _ H. destruct negative; [reflexivity | tauto].
  - intros _ H. apply Qle_bool_iff. lra.
Qed.

(** C3, as amended.  For every configuration object whose [maxOutput]
    is given (truthy) and is not a positive number (a negative number, or
    a value that is no number), [setConfig] throws at once: the
    invalid-mode error if the mode is invalid as well, the
    invalid-[maxOutput] error otherwise.  The entity map and the debug
    flag are not touched and nothing is rendered; the mode of the
    rejected configuration and, the mode being valid, its [maxOutput] are
    by then stored on the card. *)
Theorem setConfig_rejects_maxOutput (this : Config.Card)
    (props : list (string * JValue)) :
  let config := JObject props in
  let maxOutput := getProp config "maxOutput" in
  let result := Config.setConfig this config in
  truthy maxOutput = true ->
  ~ positiveNumber maxOutput ->
  Config.thrown result
  = Some (if Config.validMode (modeOf config)
          then Config.InvalidMaxOutput maxOutput
          else Config.InvalidMode (modeOf config))
  /\ Config.rendered result = false
  /\ Config._entities (Config.card result) = Config._entities this
  /\ Config._debug (Config.card result) = Config._debug this
  /\ Config._hass (Config.card result) = Config._hass this
  /\ Config._mode (Config.card result) = modeOf config
  /\ (Config.validMode (modeOf config) = true ->
      Config._inverterMaxOutput (Config.card result) = maxOutput).
Proof.
  intros config maxOutput result. subst config maxOutput result.
  intros Htruthy Hbad.
  unfold Config.setConfig.
  cbn [truthy negb Config._mode Config._inverterMaxOutput Config._entities
       Config._hass Config._debug].
  change (orElse (getProp (JObject props) "mode") (JString "both"))
    with (modeOf (JObject props)).
  unfold orElse. rewrite Htruthy.
  rewrite (not_positive_invalid _ Htruthy Hbad).
  destruct (Config.validMode (modeOf (JObject props))); cbn [negb];
    repeat split; discriminate.
Qed.

Lemma setConfig_rejects_maxOutput_witness :
  Config.thrown
    (Config.setConfig Config.constructor
       (JObject [("mode", JString "charge"); ("maxOutput", JNumber (JFinite (-3)))]))
  = Some (Config.InvalidMaxOutput (JNumber (JFinite (-3))))
  /\ Config.thrown
       (Config.setConfig Config.constructor
          (JObject [("maxOutput", JString "5kW")]))
     = Some (Config.InvalidMaxOutput (JString "5kW")).
Proof.
  split.
  - apply (setConfig_rejects_maxOutput Config.constructor
             [("mode", JString "charge"); ("maxOutput", JNumber (JFinite (-3)))]).
    + reflexivity.
    + simpl. lra.
  - apply (setConfig_rejects_maxOutput Config.constructor
             [("maxOutput", JString "5kW")]).
    + reflexivity.
    + simpl. tauto.
Defined.

(** C3, counterexample.  A [maxOutput] of zero is not a positive number,
    yet [setConfig] returns without an error.  And a negative [maxOutput]
    is rejected, but the card that the error leaves behind is no longer
    the card [setConfig] was called on: it holds the mode and the
    [maxOutput] of the rejected configuration. *)
Lemma setConfig_accepts_zero :
  (~ positiveNumber (getProp (JObject [("maxOutput", JNumber (JFinite 0))]) "maxOutput")
   /\ Config.thrown
        (Config.setConfig Config.constructor
           (JObject [("maxOutput", JNumber (JFinite 0))]))
      = None)
  /\ (let result :=
        Config.setConfig Config.constructor
          (JObject [("mode", JString "charge"); ("maxOutput", JNumber (JFinite (-3)))]) in
      Config.thrown result = Some (Config.InvalidMaxOutput (JNumber (JFinite (-3))))
      /\ Config._mode (Config.card result) = JString "charge"
      /\ Config._inverterMaxOutput (Config.card result) = JNumber (JFinite (-3))
      /\ Config.card result <> Config.constructor).
Proof.
  split.
  - split; [simpl; lra | reflexivity].
  - cbv zeta. split; [reflexivity |]. split; [reflexivity |].
    split; [reflexivity | discriminate].
Qed.



(** * Further properties *)

(** ** Day masks beyond seven bits *)

Lemma toInt32_low_bits (m : Z) : toInt32 m mod 128 = m mod 128.
Proof. unfold toInt32. Z.div_mod_to_equations. lia. Qed.

Lemma toInt32_testbit_low (m i : Z) :
  0 <= i < 7 -> Z.testbit (toInt32 m) i = Z.testbit (m mod 128) i.
Proof.
  intros Hi. rewrite <- (toInt32_low_bits m).
  change 128 with (2 ^ 7). rewrite Z.mod_pow2_bits_low by lia. reflexivity.
Qed.

Lemma shl32_one (i : Z) : 0 <= i < 7 -> shl32 1 i = 2 ^ i /\ toInt32 (2 ^ i) = 2 ^ i.
Proof.
  intros Hi.
  assert (H : i = 0 \/ i = 1 \/ i = 2 \/ i = 3 \/ i = 4 \/ i = 5 \/ i = 6) by lia.
  repeat (destruct H as [-> | H]); try subst i; split; reflexivity.
Qed.

(** Testing a day bit only looks at the low seven bits of the mask. *)
Lemma and32_low_bits (m i : Z) :
  0 <= i < 7 -> and32 m (shl32 1 i) = and32 (m mod 128) (shl32 1 i).
Proof.
  intros Hi. destruct (shl32_one i Hi) as [-> Hpow]. unfold and32. rewrite Hpow.
  apply Z.bits_inj'. intros n Hn. rewrite !Z.land_spec.
  rewrite Z.pow2_bits_eqb by lia.
  destruct (Z.eqb_spec i n) as [<- | Hne]; [| rewrite !andb_false_r; reflexivity].
  rewrite !andb_true_r, !toInt32_testbit_low by lia.
  rewrite Z.mod_mod by lia. reflexivity.
Qed.

Lemma getDaysFromMask_low_bits (m : Z) :
  _getDaysFromMask m = _getDaysFromMask (m mod 128).
Proof.
  unfold _getDaysFromMask, indexed, dayKeys.
  cbn [length seq map combine fold_left Z.of_nat Pos.of_succ_nat Pos.succ].
  rewrite !(and32_low_bits m) by lia. reflexivity.
Qed.

Lemma calculateDaymask_low_bits (m : Z) :
  _calculateDaymask (_getDaysFromMask m) = m mod 128.
Proof.
  rewrite getDaysFromMask_low_bits. apply Z.eqb_eq.
  apply (forallb_upto _ 128 daymask_roundtrip_checked).
  apply Z.mod_pos_bound. lia.
Qed.

(** X1.  For every integer mask, converting it to a weekday selection and
    back keeps its low seven bits and drops the rest: the result is the
    mask modulo 128. *)
Theorem daymask_roundtrip_mod128 (m : Z) :
  _calculateDaymask (_getDaysFromMask m) = m mod 128.
Proof. exact (calculateDaymask_low_bits m). Qed.

Lemma newMask_rendered_checked :
  forallb (fun m => newMaskOf (_renderDayCheckboxes m) =? m) (upto 128) = true.
Proof. vm_compute. reflexivity. Qed.

(** X2.  The day checkboxes rendered for a mask, read back by the change
    listener, give one write of that mask (modulo 128) to the mask entity:
    the listener sends the whole mask, built from all seven boxes. *)
Theorem dayCheckbox_change_rendered (maskEntity : string) (m : Z) :
  dayCheckbox_change maskEntity (_renderDayCheckboxes m)
  = [SetEntityValue maskEntity (VNumber (Some (m mod 128))) "number"].
Proof.
  unfold dayCheckbox_change, _renderDayCheckboxes.
  rewrite getDaysFromMask_low_bits.
  fold (_renderDayCheckboxes (m mod 128)).
  assert (H : newMaskOf (_renderDayCheckboxes (m mod 128)) = m mod 128).
  { apply Z.eqb_eq. apply (forallb_upto _ 128 newMask_rendered_checked).
    apply Z.mod_pos_bound. lia. }
  rewrite H. reflexivity.
Qed.

(** X3.  Today's mask has exactly one bit set, the bit of the local
    weekday counted from Monday (Monday is 1, Sunday is 64); read as a
    weekday selection and converted back it is unchanged. *)
Theorem todayDayMask_single_bit (env : Env) :
  0 <= daysSinceMonday env <= 6
  /\ _getTodayDayMask env = Some (2 ^ daysSinceMonday env)
  /\ _calculateDaymask (_getDaysFromMask (2 ^ daysSinceMonday env))
     = 2 ^ daysSinceMonday env.
Proof.
  unfold daysSinceMonday, _getTodayDayMask, getDay, Date_now.
  set (D := Day (LocalTime (zone env) (clock env))).
  assert (Hbound : 0 <= (D + 3) mod 7 < 7) by (apply Z.mod_pos_bound; lia).
  assert (Hindex : (if (D + 4) mod 7 =? 0 then 6 else (D + 4) mod 7 - 1)
                   = (D + 3) mod 7).
  { destruct (Z.eqb_spec ((D + 4) mod 7) 0); Z.div_mod_to_equations; lia. }
  split; [lia |]. split.
  - rewrite Hindex. destruct (shl32_one _ Hbound) as [-> _]. reflexivity.
  - rewrite calculateDaymask_low_bits. apply Z.mod_small.
    assert (H : (D + 3) mod 7 = 0 \/ (D + 3) mod 7 = 1 \/ (D + 3) mod 7 = 2
                \/ (D + 3) mod 7 = 3 \/ (D + 3) mod 7 = 4 \/ (D + 3) mod 7 = 5
                \/ (D + 3) mod 7 = 6) by lia.
    repeat (destruct H as [-> | H]); try rewrite H; lia.
Qed.

(** ** The time shown and the time typed *)

Lemma minuteOfDay_fields (h m : Z) :
  0 <= h < 24 -> 0 <= m < 60 ->
  0 <= h * 60 + m < 1440
  /\ minuteOfDayString (h * 60 + m) = timeString h m.
Proof.
  intros Hh Hm. split; [lia |]. unfold minuteOfDayString.
  replace ((h * 60 + m) / 60) with h by (Z.div_mod_to_equations; lia).
  replace ((h * 60 + m) mod 60) with m by (Z.div_mod_to_equations; lia).
  reflexivity.
Qed.

Lemma minuteOfDay_strict (n : Z) : 0 <= n < 1440 -> strictTime (minuteOfDayString n).
Proof.
  intros Hn. exists (n / 60), (n mod 60).
  split; [Z.div_mod_to_equations; lia |].
  split; [apply Z.mod_pos_bound; lia | reflexivity].
Qed.

Lemma timeToMinutes_minuteOfDay (n : Z) :
  0 <= n < 1440 -> _timeToMinutes (Some (minuteOfDayString n)) = n.
Proof.
  intros Hn. unfold minuteOfDayString.
  rewrite timeToMinutes_timeString.
  - Z.div_mod_to_equations; lia.
  - Z.div_mod_to_equations; lia.
  - apply Z.mod_pos_bound; lia.
Qed.

Lemma displayTime12_timeString (h m : Z) :
  0 <= h < 24 -> 0 <= m < 60 ->
  displayTime12 (timeString h m)
  = Some (String_ (Some (hour12Of h)) ++ ":" ++ padStart2 (String_ (Some m))
          ++ " " ++ ampmOf h).
Proof.
  intros Hh Hm. destruct (timeString_checked h m Hh Hm) as [_ Hfields].
  unfold displayTime12. rewrite Hfields. unfold hour12Of, ampmOf.
  assert (H12 : (if h =? 0 then 12 else if h >? 12 then h - 12 else h)
                = (h + 11) mod 12 + 1).
  { destruct (Z.eqb_spec h 0); [subst; reflexivity |].
    destruct (Z.gtb_spec h 12); Z.div_mod_to_equations; lia. }
  rewrite H12.
  destruct (Z.geb_spec h 12), (Z.ltb_spec h 12); try lia; reflexivity.
Qed.

Lemma renderTimeSelects_timeString (h m : Z) (disabled : bool) :
  0 <= h < 24 -> 0 <= m < 60 ->
  _renderTimeSelects (timeString h m) disabled
  = {| displayTime :=
         String_ (Some (hour12Of h)) ++ ":" ++ padStart2 (String_ (Some m))
         ++ " " ++ ampmOf h;
       inputValue := timeString h m;
       inputDisabled := disabled |}.
Proof.
  intros Hh Hm. destruct (timeString_checked h m Hh Hm) as [Htest _].
  unfold _renderTimeSelects. rewrite Htest, displayTime12_timeString by assumption.
  reflexivity.
Qed.

Lemma renderTimeSelects_fallback (endTime : string) (disabled : bool) :
  ~ strictTime endTime ->
  _renderTimeSelects endTime disabled
  = {| displayTime := "12:00 AM"; inputValue := "00:00";
       inputDisabled := disabled |}.
Proof.
  intros Hbad. unfold _renderTimeSelects.
  destruct (isTimeString endTime) eqn:Htest.
  - exfalso. apply Hbad, isTimeString_strict, Htest.
  - reflexivity.
Qed.

Lemma distinctb_map_injective {A : Type} (f : A -> string) (l : list A) :
  distinctb (map f l) = true ->
  forall x y, In x l -> In y l -> f x = f y -> x = y.
Proof.
  induction l as [|a rest IH]; simpl; [intros _ x y [] |].
  intros H. apply andb_true_iff in H as [Hfresh Hrest].
  apply negb_true_iff in Hfresh.
  assert (Hnot : forall z, In z rest -> f a <> f z).
  { intros z Hz Heq.
    assert (Hex : existsb (String.eqb (f a)) (map f rest) = true).
    { apply existsb_exists. exists (f z). split.
      - apply in_map, Hz.
      - apply String.eqb_eq, Heq. }
    congruence. }
  intros x y [<- | Hx] [<- | Hy] Heq.
  - reflexivity.
  - exfalso. exact (Hnot y Hy Heq).
  - exfalso. exact (Hnot x Hx (eq_sym Heq)).
  - exact (IH Hrest x y Hx Hy Heq).
Qed.

Lemma clockTexts_distinct : distinctb (map clockText (upto 1440)) = true.
Proof. vm_compute. reflexivity. Qed.

(** X4.  The end time is shown on the 12-hour clock without ambiguity:
    a valid [HH:MM] value is shown with the hour from 1 to 12, the minute
    zero-padded and AM before noon, PM from noon on, and two different
    valid values are never shown as the same text.  A malformed end time
    is shown as midnight, ["12:00 AM"], and the input is given ["00:00"]. *)
Theorem renderTimeSelects_unambiguous :
  (forall h m disabled, 0 <= h < 24 -> 0 <= m < 60 ->
     _renderTimeSelects (timeString h m) disabled
     = {| displayTime :=
            String_ (Some (hour12Of h)) ++ ":" ++ padStart2 (String_ (Some m))
            ++ " " ++ ampmOf h;
          inputValue := timeString h m;
          inputDisabled := disabled |}
     /\ 1 <= hour12Of h <= 12)
  /\ (forall h m h' m' disabled disabled',
        0 <= h < 24 -> 0 <= m < 60 -> 0 <= h' < 24 -> 0 <= m' < 60 ->
        displayTime (_renderTimeSelects (timeString h m) disabled)
        = displayTime (_renderTimeSelects (timeString h' m') disabled') ->
        h = h' /\ m = m')
  /\ (forall endTime disabled, ~ strictTime endTime ->
        _renderTimeSelects endTime disabled
        = {| displayTime := "12:00 AM"; inputValue := "00:00";
             inputDisabled := disabled |}).
Proof.
  split; [| split].
  - intros h m disabled Hh Hm. split.
    + apply renderTimeSelects_timeString; assumption.
    + unfold hour12Of. pose proof (Z.mod_pos_bound (h + 11) 12). lia.
  - intros h m h' m' disabled disabled' Hh Hm Hh' Hm' Heq.
    destruct (minuteOfDay_fields h m Hh Hm) as [Hn Hs].
    destruct (minuteOfDay_fields h' m' Hh' Hm') as [Hn' Hs'].
    assert (Hsame : clockText (h * 60 + m) = clockText (h' * 60 + m')).
    { unfold clockText. rewrite Hs, Hs'.
      rewrite !renderTimeSelects_timeString in * by assumption. exact Heq. }
    pose proof (distinctb_map_injective clockText (upto 1440) clockTexts_distinct
                  (h * 60 + m) (h' * 60 + m')
                  (upto_spec 1440 (h * 60 + m) ltac:(lia))
                  (upto_spec 1440 (h' * 60 + m') ltac:(lia))
                  Hsame).
    lia.
  - apply renderTimeSelects_fallback.
Qed.

Lemma renderTimeSelects_unambiguous_witness :
  _renderTimeSelects (timeString 0 5) false
  = {| displayTime := "12:05 AM"; inputValue := "00:05"; inputDisabled := false |}
  /\ _renderTimeSelects (timeString 13 30) true
     = {| displayTime := "1:30 PM"; inputValue := "13:30"; inputDisabled := true |}
  /\ displayTime (_renderTimeSelects "25:00" false) = "12:00 AM".
Proof.
  destruct renderTimeSelects_unambiguous as (Hshow & _ & Hbad).
  split; [| split].
  - apply (Hshow 0 5 false); lia.
  - apply (Hshow 13 30 true); lia.
  - rewrite (Hbad "25:00" false); [reflexivity |].
    intros H. apply strictTime_isTimeString in H. discriminate.
Defined.

Lemma strict_midnight : strictTime "00:00".
Proof. exists 0, 0. split; [lia |]. split; [lia | reflexivity]. Qed.


(** ** End times and the clock *)

Lemma TimeClip_out_of_range (t : Z) :
  ~ Z.abs t <= 8640000000000000 -> TimeClip t = None.
Proof.
  intros H. unfold TimeClip.
  destruct (Z.leb_spec (Z.abs t) 8640000000000000); [lia | reflexivity].
Qed.

Lemma calculateEndTime_NaN (env : Env) (h m : Z) :
  0 <= h < 24 -> 0 <= m < 60 ->
  _calculateEndTime env (timeString h m) None = Some "NaN:NaN".
Proof.
  intros Hh Hm. destruct (timeString_checked h m Hh Hm) as [_ Hfields].
  unfold _calculateEndTime. rewrite Hfields. unfold numMul, numAdd, getTime.
  destruct (setHours _ _ _ _ _ _); reflexivity.
Qed.

Lemma calculateEndTime_cases (env : Env) (h m duration : Z) :
  0 <= h < 24 -> 0 <= m < 60 ->
  (datesInRange env h m duration ->
   _calculateEndTime env (timeString h m) (Some duration)
   = Some (timeString
             ((LocalTime (zone env) (endInstant env h m duration) / msPerHour) mod 24)
             ((LocalTime (zone env) (endInstant env h m duration) / msPerMinute) mod 60)))
  /\ (~ datesInRange env h m duration ->
      _calculateEndTime env (timeString h m) (Some duration) = Some "NaN:NaN").
Proof.
  intros Hh Hm. destruct (timeString_checked h m Hh Hm) as [_ Hfields].
  unfold _calculateEndTime. rewrite Hfields.
  unfold setHours, Date_now.
  fold (startLocal env h m). fold (startInstant env h m).
  split.
  - intros [Hstart Hend].
    rewrite (TimeClip_in_range _ Hstart).
    unfold getTime, numAdd, numMul, Date_of.
    fold (endInstant env h m duration).
    rewrite (TimeClip_in_range _ Hend). reflexivity.
  - intros Hout. unfold datesInRange in Hout.
    destruct (Z.le_gt_cases (Z.abs (startInstant env h m)) 8640000000000000)
      as [Hstart | Hstart].
    + rewrite (TimeClip_in_range _ Hstart).
      unfold getTime, numAdd, numMul, Date_of.
      fold (endInstant env h m duration).
      rewrite TimeClip_out_of_range by tauto. reflexivity.
    + rewrite TimeClip_out_of_range by lia. reflexivity.
Qed.

Lemma not_strict_NaN : ~ strictTime "NaN:NaN".
Proof. intros H. apply strictTime_isTimeString in H. discriminate. Qed.

(** X6.  For a valid [HH:MM] start, [_calculateEndTime] returns a strict
    [HH:MM] text whenever the duration is a number and the dates involved
    are in the range of [Date], whatever the time zone does in between; it
    returns ["NaN:NaN"] exactly when the duration is [NaN] or a date is out
    of range.  (The duration in milliseconds is taken to be an integer that
    a number holds exactly.) *)
Theorem calculateEndTime_wellformed (env : Env) (h m : Z) (duration : Num) :
  0 <= h < 24 -> 0 <= m < 60 ->
  exactDuration duration ->
  exists v,
    _calculateEndTime env (timeString h m) duration = Some v
    /\ (strictTime v \/ v = "NaN:NaN")
    /\ (strictTime v <->
        exists d, duration = Some d /\ datesInRange env h m d).
Proof.
  intros Hh Hm _. destruct duration as [d|].
  - destruct (calculateEndTime_cases env h m d Hh Hm) as [Hin Hout].
    assert (Hdec : datesInRange env h m d \/ ~ datesInRange env h m d).
    { unfold datesInRange. lia. }
    destruct Hdec as [Hrange | Hrange].
    + eexists. split; [exact (Hin Hrange) |].
      assert (Hstrict : strictTime
                (timeString
                   ((LocalTime (zone env) (endInstant env h m d) / msPerHour) mod 24)
                   ((LocalTime (zone env) (endInstant env h m d) / msPerMinute) mod 60))).
      { eexists _, _. split; [apply Z.mod_pos_bound; lia |].
        split; [apply Z.mod_pos_bound; lia | reflexivity]. }
      split; [left; exact Hstrict |].
      split; [intros _; exists d; split; [reflexivity | exact Hrange] |].
      intros _. exact Hstrict.
    + exists "NaN:NaN". split; [exact (Hout Hrange) |].
      split; [right; reflexivity |].
      split; [intros H; destruct (not_strict_NaN H) |].
      intros (d' & Hd' & Hrange'). injection Hd' as <-. tauto.
  - exists "NaN:NaN". split; [apply calculateEndTime_NaN; assumption |].
    split; [right; reflexivity |].
    split; [intros H; destruct (not_strict_NaN H) |].
    intros (d' & Hd' & _). discriminate.
Qed.

Lemma calculateEndTime_wellformed_witness :
  exists v,
    _calculateEndTime springNight (timeString 1 50) (Some 20) = Some v
    /\ (strictTime v \/ v = "NaN:NaN")
    /\ (strictTime v <->
        exists d, Some 20 = Some d /\ datesInRange springNight 1 50 d).
Proof.
  apply (calculateEndTime_wellformed springNight 1 50 (Some 20)); [lia | lia |].
  simpl. change (2 ^ 53) with 9007199254740992. lia.
Defined.

(** X7.  The text of the current time always passes the card's own time
    test, and [_timeToMinutes] reads the hour and minute of the clock back
    from it: a value from 0 to 1439. *)
Theorem currentTime_roundtrip (env : Env) :
  isTimeString (_getCurrentTime env) = true
  /\ strictTime (_getCurrentTime env)
  /\ _timeToMinutes (Some (_getCurrentTime env))
     = hourNow env * 60 + minuteNow env
  /\ 0 <= hourNow env < 24 /\ 0 <= minuteNow env < 60.
Proof.
  pose proof (hourNow_range env) as Hh. pose proof (minuteNow_range env) as Hm.
  rewrite getCurrentTime_timeString.
  destruct (timeString_checked _ _ Hh Hm) as [Htest _].
  split; [exact Htest |].
  split; [apply isTimeString_strict, Htest |].
  split; [apply timeToMinutes_timeString; assumption |].
  split; assumption.
Qed.



(** ** The Enable buttons, continued *)

Lemma setEntityValue_number (this : Card) (hass : Hass) (entityId : string)
    (n : Num) :
  _hass this = Some hass ->
  _setEntityValue this entityId (VNumber n) "number"
  = if known hass entityId then [setNumber entityId n] else [].
Proof.
  intros H. unfold _setEntityValue, known. rewrite H.
  destruct (String.eqb entityId ""); [reflexivity |].
  destruct (states hass !! entityId) as [x|]; reflexivity.
Qed.

Lemma enable_click_on (env : Env) (q : Dom) (this : Card) (hass : Hass)
    (d : Direction) :
  _hass this = Some hass ->
  stateOf (states hass !! switchOf (_entities this) d) = Some "on" ->
  enable_click env q this d
  = match _calculateEndTime env (_getCurrentTime env) (durationOf (timerOf q d)) with
    | Some v => Returned [SetEntityValue (endTimeOf (_entities this) d) (VString v) "text"]
    | None => OutsideEmbedding
    end.
Proof.
  intros Hhass Hon.
  destruct d; cbn [enable_click switchOf endTimeOf timerOf] in *;
    [unfold chargingEnable_click | unfold dischargingEnable_click];
    rewrite Hhass; cbn zeta; rewrite Hon;
    rewrite bool_decide_eq_true_2 by reflexivity; reflexivity.
Qed.

Lemma enable_click_off (env : Env) (q : Dom) (this : Card) (hass : Hass)
    (d : Direction) :
  _hass this = Some hass ->
  stateOf (states hass !! switchOf (_entities this) d) <> Some "on" ->
  enable_click env q this d
  = match _calculateEndTime env (_getCurrentTime env) (durationOf (timerOf q d)) with
    | Some endTime =>
        Returned
          [ SetEntityValue (startTimeOf (_entities this) d)
              (VString (_getCurrentTime env)) "text";
            SetEntityValue (endTimeOf (_entities this) d) (VString endTime) "text";
            SetEntityValue (dayMaskOf (_entities this) d)
              (VNumber (_getTodayDayMask env)) "number";
            SetEntityValue (powerOf (_entities this) d)
              (VNumber (Some (_sliderKwToPercent this (sliderKwOf q d)))) "number";
            SetTimeout (turn_on (switchOf (_entities this) d)) 100 ]
    | None => OutsideEmbedding
    end.
Proof.
  intros Hhass Hoff.
  destruct d;
    cbn [enable_click switchOf endTimeOf timerOf startTimeOf dayMaskOf powerOf
         sliderKwOf] in *;
    [unfold chargingEnable_click | unfold dischargingEnable_click];
    rewrite Hhass; cbn zeta;
    rewrite bool_decide_eq_false_2 by exact Hoff; reflexivity.
Qed.

(** X9.  With the switch ['on'] and a duration field whose content is no
    number ([parseInt] gives [NaN]), the Enable click asks for the text
    ["NaN:NaN"] to be written to the end-time entity. *)
Theorem enable_click_unparsable_duration (env : Env) (q : Dom) (this : Card)
    (hass : Hass) (d : Direction) :
  _hass this = Some hass ->
  stateOf (states hass !! switchOf (_entities this) d) = Some "on" ->
  timerOf q d = Some None ->
  enable_click env q this d
  = Returned [SetEntityValue (endTimeOf (_entities this) d) (VString "NaN:NaN") "text"]
  /\ issued this [SetEntityValue (endTimeOf (_entities this) d) (VString "NaN:NaN") "text"]
     = if known hass (endTimeOf (_entities this) d)
       then [setText (endTimeOf (_entities this) d) "NaN:NaN"] else [].
Proof.
  intros Hhass Hon Htimer. split.
  - rewrite (enable_click_on env q this hass d Hhass Hon), Htimer.
    cbn [durationOf]. rewrite getCurrentTime_timeString.
    rewrite calculateEndTime_NaN; [reflexivity | apply hourNow_range | apply minuteNow_range].
  - cbn [issued flat_map]. rewrite (setEntityValue_text this hass) by assumption.
    apply app_nil_r.
Qed.

Lemma enable_click_unparsable_duration_witness :
  enable_click winterEvening panelCleared (cardWith "both" (Some snapshotA)) Charge
  = Returned [SetEntityValue "text.saj_charge_end_time_time" (VString "NaN:NaN") "text"]
  /\ issued (cardWith "both" (Some snapshotA))
       [SetEntityValue "text.saj_charge_end_time_time" (VString "NaN:NaN") "text"]
     = [setText "text.saj_charge_end_time_time" "NaN:NaN"].
Proof.
  apply (enable_click_unparsable_duration winterEvening panelCleared
           (cardWith "both" (Some snapshotA)) snapshotA Charge);
    reflexivity.
Defined.


(** ** The refresh decision, both ways *)

Lemma uniqueInOrder_complete (seen ids : list string) (id : string) :
  In id ids -> In id seen \/ In id (uniqueInOrder seen ids).
Proof.
  revert seen. induction ids as [|x rest IH]; intros seen; simpl; [tauto |].
  intros [<- | Hin].
  - destruct (existsb (String.eqb x) seen) eqn:Hseen.
    + left. apply existsb_exists in Hseen as (y & Hy & Heq).
      apply String.eqb_eq in Heq. subst y. exact Hy.
    + right. left. reflexivity.
  - destruct (existsb (String.eqb x) seen) eqn:Hseen.
    + exact (IH seen Hin).
    + destruct (IH (x :: seen) Hin) as [[<- | H] | H].
      * right. left. reflexivity.
      * left. exact H.
      * right. right. exact H.
Qed.

Lemma uniqueIds_complete (this : Card) (id : string) :
  In id (relevantEntityIds this) -> id <> "" -> In id (uniqueIds this).
Proof.
  intros Hin Hne. unfold uniqueIds.
  apply list_elem_of_In, list_elem_of_filter. split; [exact Hne |].
  apply list_elem_of_In.
  destruct (uniqueInOrder_complete [] _ _ Hin) as [[] | H]. exact H.
Qed.

Lemma uniqueIds_nonempty (this : Card) (id : string) :
  In id (uniqueIds this) -> id <> "".
Proof.
  unfold uniqueIds. intros H.
  apply list_elem_of_In, list_elem_of_filter in H as [H _]. exact H.
Qed.

Lemma entityChanged_differs (a b : option Entity) :
  entityChanged a b = true <-> differsForRefresh a b.
Proof.
  destruct a as [x|], b as [y|]; simpl; try tauto; try (split; [tauto | discriminate]);
    try (split; [discriminate | tauto]).
  destruct (Pos.eqb_spec (identity x) (identity y)) as [Hid | Hid].
  - split; [discriminate | tauto].
  - rewrite !orb_true_iff, !negb_true_iff.
    rewrite !bool_decide_eq_false.
    split.
    + intros H. split; [exact Hid |].
      destruct H as [[[H | H] | H] | H].
      * left. apply String.eqb_neq, H.
      * right. left. exact H.
      * right. right. left. apply String.eqb_neq, H.
      * right. right. right. apply String.eqb_neq, H.
    + intros [_ [H | [H | [H | H]]]].
      * left. left. left. apply String.eqb_neq, H.
      * left. left. right. exact H.
      * left. right. apply String.eqb_neq, H.
      * right. apply String.eqb_neq, H.
Qed.

(** X11.  [_shouldUpdate] asks for a refresh exactly when the card holds
    no snapshot yet, or some non-empty entity id of the active mode's
    relevant set is in one of the two snapshots only, or is held as two
    different objects that differ in value, pending-write attribute,
    last-changed or last-updated stamp.  An entity that is the same object
    in both snapshots never asks for a refresh, whatever its fields are. *)
Theorem shouldUpdate_exactly (this : Card) (B : Hass) :
  _shouldUpdate this B = true
  <-> match _hass this with
      | None => True
      | Some A =>
          exists id,
            In id (relevantEntityIds this) /\ id <> ""
            /\ differsForRefresh (states A !! id) (states B !! id)
      end.
Proof.
  unfold _shouldUpdate. destruct (_hass this) as [A|]; [| tauto].
  rewrite existsb_exists. split.
  - intros (id & Hin & Hchanged). exists id.
    split; [exact (uniqueIds_relevant _ _ Hin) |].
    split; [exact (uniqueIds_nonempty _ _ Hin) |].
    apply entityChanged_differs, Hchanged.
  - intros (id & Hin & Hne & Hdiff). exists id.
    split; [exact (uniqueIds_complete _ _ Hin Hne) |].
    apply entityChanged_differs, Hdiff.
Qed.

(** ** Pushes of the host *)

Lemma renderCard_fresh (focus : option Element) (w : Widget) (hass : Hass) :
  _hass (self w) = Some hass ->
  _isUserInteracting focus = false ->
  _renderCard focus w
  = ({| self := self w; _lastForceUpdate := _lastForceUpdate w;
        _lastDebugLog := _lastDebugLog w; _lastTimerCheck := _lastTimerCheck w;
        innerHTML := Some (self w) |},
     [Render (self w)]).
Proof. intros Hhass Hfocus. unfold _renderCard. rewrite Hhass, Hfocus. reflexivity. Qed.

Lemma set_hass_outcome (env : Env) (focus : option Element)
    (w : Widget) (hass : Hass) :
  self (fst (set_hass env focus w (Some hass))) = withHass (self w) hass
  /\ List.filter isRender (snd (set_hass env focus w (Some hass)))
     = (if rendersOn env focus w hass then [Render (withHass (self w) hass)] else [])
  /\ innerHTML (fst (set_hass env focus w (Some hass)))
     = (if rendersOn env focus w hass then Some (withHass (self w) hass)
        else innerHTML w).
Proof.
  unfold set_hass, rendersOn, painted.
  destruct (due (_lastTimerCheck w) (clock env) 60000);
    destruct (_isUserInteracting focus) eqn:Hfocus; cbn [negb andb];
    destruct (due (_lastForceUpdate w) (clock env) 30000); cbn [orb];
    rewrite ?andb_false_r, ?andb_true_r;
    cbn [fst snd self innerHTML];
    repeat match goal with
      | |- context [if ?c || negb ?d then _ else _] => destruct (c || negb d)
      end;
    rewrite ?(renderCard_fresh focus _ hass) by (reflexivity || exact Hfocus);
    cbn [fst snd self innerHTML app List.filter isRender];
    repeat split; reflexivity.
Qed.

(** X12.  A push of a state always stores it as the held state.  It
    writes the markup at most once, and exactly when no time or range input
    has the focus and the 30-second refresh is due, or the refresh decision
    says so, or nothing has been written yet; the markup is then built from
    the state just pushed.  While a time or range input has the focus
    nothing is written. *)
Theorem set_hass_renders_exactly (env : Env) (focus : option Element)
    (w : Widget) (hass : Hass) :
  let result := set_hass env focus w (Some hass) in
  self (fst result) = withHass (self w) hass
  /\ List.filter isRender (snd result)
     = (if rendersOn env focus w hass then [Render (withHass (self w) hass)] else [])
  /\ innerHTML (fst result)
     = (if rendersOn env focus w hass then Some (withHass (self w) hass)
        else innerHTML w)
  /\ rendersOn env focus w hass && _isUserInteracting focus = false.
Proof.
  cbv zeta.
  destruct (set_hass_outcome env focus w hass) as (H1 & H2 & H3).
  split; [exact H1 |]. split; [exact H2 |]. split; [exact H3 |].
  unfold rendersOn. destruct (_isUserInteracting focus); [reflexivity |].
  apply andb_false_r.
Qed.

Lemma due_false (last now period : Z) :
  due last now period = false <-> last <> 0 /\ now - last <= period.
Proof.
  unfold due. rewrite orb_false_iff, Z.eqb_neq.
  destruct (Z.gtb_spec (now - last) period); split; intros [H1 H2];
    try discriminate; try lia; split; try assumption; try reflexivity; lia.
Qed.

(** X13.  A change pushed while a time or range input has the focus is
    not written, and the pushes that follow do not make up for it: a next
    push that brings no further change to the relevant entities, before the
    30-second refresh is due, writes nothing either, so the card keeps
    showing what it showed before the change. *)
Theorem suppressed_change_not_painted (env1 env2 : Env)
    (focus1 focus2 : option Element) (w : Widget) (h1 h2 : Hass) :
  _isUserInteracting focus1 = true ->
  painted w = true ->
  (forall id, In id (relevantEntityIds (self w)) ->
              sameForRefresh (states h1 !! id) (states h2 !! id)) ->
  let w1 := fst (set_hass env1 focus1 w (Some h1)) in
  _lastForceUpdate w1 <> 0 ->
  clock env2 - _lastForceUpdate w1 <= 30000 ->
  let result := set_hass env2 focus2 w1 (Some h2) in
  List.filter isRender (snd (set_hass env1 focus1 w (Some h1))) = []
  /\ List.filter isRender (snd result) = []
  /\ innerHTML (fst result) = innerHTML w
  /\ _hass (self (fst result)) = Some h2.
Proof.
  intros Hfocus Hpainted Hsame w1 Hlast Hsoon result.
  destruct (set_hass_outcome env1 focus1 w h1) as (Hself1 & Hr1 & Hi1).
  assert (Hno1 : rendersOn env1 focus1 w h1 = false).
  { unfold rendersOn. rewrite Hfocus. reflexivity. }
  rewrite Hno1 in Hr1, Hi1. fold w1 in Hself1, Hi1.
  destruct (set_hass_outcome env2 focus2 w1 h2) as (Hself2 & Hr2 & Hi2).
  fold result in Hself2, Hr2, Hi2.
  assert (Hno2 : rendersOn env2 focus2 w1 h2 = false).
  { unfold rendersOn, painted.
    rewrite (proj2 (due_false _ _ _) (conj Hlast Hsoon)), Hi1.
    fold (painted w). rewrite Hpainted.
    assert (Hshould : _shouldUpdate (self w1) h2 = false).
    { unfold _shouldUpdate. rewrite Hself1. cbn [_hass withHass].
      apply not_true_is_false. intros Hex.
      apply existsb_exists in Hex as (id & Hin & Hchanged).
      assert (Hrel : In id (relevantEntityIds (self w))).
      { exact (uniqueIds_relevant (withHass (self w) h1) id Hin). }
      rewrite (entityChanged_same _ _ (Hsame id Hrel)) in Hchanged. discriminate. }
    rewrite Hshould. apply andb_false_r. }
  rewrite Hno2 in Hr2, Hi2.
  split; [exact Hr1 |]. split; [exact Hr2 |].
  split; [rewrite Hi2; exact Hi1 |].
  rewrite Hself2. reflexivity.
Qed.

Lemma suppressed_change_not_painted_witness :
  _shouldUpdate (self paintedWidget) snapshotC = true
  /\ innerHTML
       (fst (set_hass (at_ 1793562002000) None
               (fst (set_hass (at_ 1793562001000) (Some timeInput) paintedWidget
                       (Some snapshotC)))
               (Some snapshotC)))
     = Some (cardWith "both" (Some snapshotA)).
Proof.
  split; [vm_compute; reflexivity |].
  destruct (suppressed_change_not_painted (at_ 1793562001000) (at_ 1793562002000)
              (Some timeInput) None paintedWidget snapshotC snapshotC)
    as (_ & _ & H & _).
  - reflexivity.
  - reflexivity.
  - intros id Hin. simpl in Hin.
    repeat (destruct Hin as [<- | Hin]); try contradiction;
      vm_compute; repeat split.
  - vm_compute. discriminate.
  - vm_compute. discriminate.
  - exact H.
Defined.

Lemma set_hass_check (env : Env) (focus : option Element) (w : Widget)
    (hass : option Hass) :
  let ran :=
    match hass with
    | Some _ => due (_lastTimerCheck w) (clock env) 60000
    | None => false
    end in
  existsb isExpiryCheck (snd (set_hass env focus w hass)) = ran
  /\ _lastTimerCheck (fst (set_hass env focus w hass))
     = (if ran then clock env else _lastTimerCheck w).
Proof.
  destruct hass as [hass|]; [| split; reflexivity].
  cbv zeta. unfold set_hass.
  destruct (due (_lastTimerCheck w) (clock env) 60000);
    destruct (due (_lastForceUpdate w) (clock env) 30000);
    destruct (_isUserInteracting focus) eqn:Hfocus;
    cbn [negb andb]; rewrite ?andb_false_r, ?andb_true_r;
    cbn [fst snd self innerHTML];
    repeat match goal with
      | |- context [if ?c || negb ?d then _ else _] => destruct (c || negb d)
      end;
    rewrite ?(renderCard_fresh focus _ hass) by (reflexivity || exact Hfocus);
    split; reflexivity.
Qed.

Lemma checkTimes_spaced (pushes : list Push) :
  Forall (fun p => clock (pushEnv p) <> 0) pushes ->
  forall w,
    spaced 60000 (checkTimes (run w pushes))
    /\ (_lastTimerCheck w <> 0 ->
        Forall (fun t => 60000 < t - _lastTimerCheck w) (checkTimes (run w pushes))).
Proof.
  induction 1 as [|p rest Hp _ IH]; intros w; [split; [exact I | constructor] |].
  cbn [run].
  destruct (set_hass_check (pushEnv p) (pushFocus p) w (pushHass p)) as [Hran Hlast].
  destruct (set_hass (pushEnv p) (pushFocus p) w (pushHass p)) as [w' events].
  cbn [fst snd] in Hran, Hlast.
  destruct (IH w') as [IHspaced IHlast].
  unfold checkTimes in *. cbn [List.filter]. rewrite Hran.
  set (ran := match pushHass p with
              | Some _ => due (_lastTimerCheck w) (clock (pushEnv p)) 60000
              | None => false
              end) in *.
  destruct ran eqn:Eran.
  - cbn [map fst spaced]. rewrite Hlast in IHlast.
    split; [split; [exact (IHlast Hp) | exact IHspaced] |].
    intros HL.
    assert (Hgap : 60000 < clock (pushEnv p) - _lastTimerCheck w).
    { subst ran. destruct (pushHass p); [| discriminate].
      unfold due in Eran. apply orb_true_iff in Eran as [E | E].
      - apply Z.eqb_eq in E. contradiction.
      - apply Z.gtb_lt in E. lia. }
    constructor; [exact Hgap |].
    eapply List.Forall_impl; [| exact (IHlast Hp)]. cbv beta. intros t Ht. lia.
  - rewrite Hlast in IHlast. split; [exact IHspaced | exact IHlast].
Qed.

(** X14.  Over any sequence of pushes at instants other than 0, the
    expiry check runs at most once per push and any two pushes that run it
    are more than 60 seconds apart; the first push of a state to a new
    element runs it. *)
Theorem expiry_checks_spaced (w : Widget) (pushes : list Push) :
  Forall (fun p => clock (pushEnv p) <> 0) pushes ->
  spaced 60000 (checkTimes (run w pushes))
  /\ Forall (fun '(_, events) => (length (List.filter isExpiryCheck events) <= 1)%nat)
       (run w pushes)
  /\ (forall p rest hass,
        pushes = p :: rest -> pushHass p = Some hass -> _lastTimerCheck w = 0 ->
        exists times, checkTimes (run w pushes) = clock (pushEnv p) :: times).
Proof.
  intros Hclock. split; [exact (proj1 (checkTimes_spaced pushes Hclock w)) |].
  split.
  - clear Hclock. revert w. induction pushes as [|p rest IH]; intros w; [constructor |].
    cbn [run].
    destruct (set_hass (pushEnv p) (pushFocus p) w (pushHass p)) as [w' events] eqn:E.
    constructor; [| apply IH].
    assert (events = snd (set_hass (pushEnv p) (pushFocus p) w (pushHass p)))
      as -> by (rewrite E; reflexivity).
    clear E. destruct (pushHass p) as [hass|]; [| cbn; lia].
    unfold set_hass.
    destruct (due (_lastTimerCheck w) (clock (pushEnv p)) 60000);
      destruct (due (_lastForceUpdate w) (clock (pushEnv p)) 30000);
      destruct (_isUserInteracting (pushFocus p)) eqn:Hfocus;
      cbn [negb andb]; rewrite ?andb_false_r, ?andb_true_r;
      cbn [fst snd self innerHTML];
      repeat match goal with
        | |- context [if ?c || negb ?d then _ else _] => destruct (c || negb d)
        end;
      rewrite ?(renderCard_fresh (pushFocus p) _ hass) by (reflexivity || exact Hfocus);
      cbn; lia.
  - intros p rest hass -> Hhass Hnew. cbn [run].
    destruct (set_hass_check (pushEnv p) (pushFocus p) w (pushHass p)) as [Hran _].
    destruct (set_hass (pushEnv p) (pushFocus p) w (pushHass p)) as [w' events].
    cbn [snd] in Hran. rewrite Hhass, Hnew in Hran.
    unfold checkTimes. cbn [List.filter]. rewrite Hran. cbn [due Z.eqb orb map fst].
    eexists. reflexivity.
Qed.

Lemma expiry_checks_spaced_witness :
  checkTimes (run (constructed (cardWith "both" None)) threePushes)
  = [1793562000000; 1793562061000]
  /\ spaced 60000 (checkTimes (run (constructed (cardWith "both" None)) threePushes)).
Proof.
  split; [vm_compute; reflexivity |].
  apply (expiry_checks_spaced (constructed (cardWith "both" None)) threePushes).
  repeat constructor; discriminate.
Defined.

(** ** Slider positions *)

Lemma round_mono (x y : Q) : (x <= y)%Q -> Math_round x <= Math_round y.
Proof. intros H. unfold Math_round. apply Qfloor_resp_le. lra. Qed.

Lemma percentToSliderKw_mono (this : Card) (p p' : Q) :
  (0 < _inverterMaxOutput this)%Q -> (p <= p')%Q ->
  (_percentToSliderKw this p <= _percentToSliderKw this p')%Q.
Proof.
  intros HM Hp. unfold _percentToSliderKw.
  set (M := _inverterMaxOutput this) in *.
  assert (H : Math_round (p / 100 * M * 2) <= Math_round (p' / 100 * M * 2)).
  { apply round_mono.
    assert (Hx : (p / 100 * M * 2 == p * M / 50)%Q) by field.
    assert (Hy : (p' / 100 * M * 2 == p' * M / 50)%Q) by field.
    rewrite Hx, Hy.
    assert (HX : (p * M / 50 * 50 == p * M)%Q) by field.
    assert (HY : (p' * M / 50 * 50 == p' * M)%Q) by field.
    set (X := (p * M / 50)%Q) in *. set (Y := (p' * M / 50)%Q) in *. nra. }
  rewrite Zle_Qle in H.
  set (a := inject_Z (Math_round (p / 100 * M * 2))) in *.
  set (b := inject_Z (Math_round (p' / 100 * M * 2))) in *.
  assert (Ha : (a / 2 * 2 == a)%Q) by field.
  assert (Hb : (b / 2 * 2 == b)%Q) by field.
  set (A := (a / 2)%Q) in *. set (B := (b / 2)%Q) in *. lra.
Qed.

Lemma sliderKw_steps (this : Card) (j : Z) :
  (0 < _inverterMaxOutput this)%Q -> (_inverterMaxOutput this < 50)%Q ->
  Math_round
    (inject_Z (_sliderKwToPercent this (inject_Z j / 2)) / 100
     * _inverterMaxOutput this * 2)
  = j.
Proof.
  intros HM Hsmall. unfold _sliderKwToPercent.
  set (M := _inverterMaxOutput this) in *.
  assert (HM0 : ~ (M == 0)%Q) by lra.
  rewrite (round_comp (inject_Z j / 2 / M * 100) (50 * inject_Z j / M))
    by (field; exact HM0).
  set (q := Math_round (50 * inject_Z j / M)).
  rewrite (round_comp (inject_Z q / 100 * M * 2) (inject_Z q * M / 50)) by field.
  destruct (round_bounds (50 * inject_Z j / M)) as [Hq1 Hq2]. fold q in Hq1, Hq2.
  assert (HX : (50 * inject_Z j / M * M == 50 * inject_Z j)%Q) by (field; exact HM0).
  assert (HY : (inject_Z q * M / 50 * 50 == inject_Z q * M)%Q) by field.
  set (X := (50 * inject_Z j / M)%Q) in *.
  set (Y := (inject_Z q * M / 50)%Q) in *.
  apply round_unique; nra.
Qed.



Lemma numberText_checked :
  forallb (fun n => readsBack n false && readsBack n true) (upto 2001) = true.
Proof. vm_compute. reflexivity. Qed.

Lemma parseInt_numberText (n : Z) (fraction : bool) :
  0 <= n <= 2000 -> parseInt (numberText n fraction) = Some (Some n).
Proof.
  intros Hn.
  pose proof (forallb_upto _ 2001 numberText_checked n ltac:(lia)) as H.
  apply andb_true_iff in H as [H0 H1].
  assert (H : readsBack n fraction = true) by (destruct fraction; assumption).
  unfold readsBack in H.
  destruct (parseInt (numberText n fraction)) as [[v|]|]; try discriminate.
  apply Z.eqb_eq in H. subst v. reflexivity.
Qed.

Lemma withState_lookup (hass : Hass) (entityId text : string) (id : string) :
  states (withState hass entityId text) !! id
  = if String.eqb id entityId
    then option_map
           (fun e => {| identity := identity e; state := text;
                        attributes := attributes e;
                        last_changed := last_changed e;
                        last_updated := last_updated e |})
           (states hass !! id)
    else states hass !! id.
Proof.
  unfold withState. cbn [states].
  destruct (String.eqb_spec id entityId) as [-> | Hne].
  - destruct (states hass !! entityId) as [e|] eqn:He.
    + rewrite lookup_insert_eq. reflexivity.
    + rewrite He. reflexivity.
  - destruct (states hass !! entityId) as [e|] eqn:He; [| reflexivity].
    rewrite lookup_insert_ne by congruence. reflexivity.
Qed.

Lemma withState_present (hass : Hass) (entityId text : string) (id : string) :
  is_Some (states hass !! id) -> is_Some (states (withState hass entityId text) !! id).
Proof.
  intros [e He]. rewrite withState_lookup, He.
  destruct (String.eqb id entityId); eexists; reflexivity.
Qed.

(** With its five entities, a section shows its controls, and the slider
    stands at the position of the percent read from the power entity. *)
Lemma sectionOf_controls (this : Card) (hass : Hass) (d : Direction)
    (power : Entity) (n : Num) :
  (forall id, In id (requiredOf (_entities this) d) -> is_Some (states hass !! id)) ->
  states hass !! powerOf (_entities this) d = Some power ->
  parseInt (state power) = Some n ->
  exists sw end_,
    sectionOf this hass d
    = Some (SectionControls (controlsOf this (shownPercent d n) sw end_)).
Proof.
  intros Hall Hpower Hparse.
  destruct d; cbn [sectionOf requiredOf startTimeOf endTimeOf dayMaskOf powerOf
                     switchOf shownPercent] in *;
    [unfold _renderChargingSection | unfold _renderDischargingSection];
    cbv zeta;
    repeat match goal with
      | |- context [states hass !! ?id] =>
          lazymatch id with
          | chargePower _ => fail
          | dischargePower _ => fail
          | _ =>
              let e := fresh "e" in
              let He := fresh "He" in
              destruct (Hall id ltac:(simpl; tauto)) as [e He]; rewrite He
          end
      end;
    rewrite Hpower, Hparse; eexists _, _; reflexivity.
Qed.

Lemma percentToSliderKw_value (this : Card) (p : Q) :
  (_percentToSliderKw this p * 2
   == inject_Z (Math_round (p * _inverterMaxOutput this / 50)))%Q.
Proof.
  unfold _percentToSliderKw.
  rewrite (round_comp (p / 100 * _inverterMaxOutput this * 2)
             (p * _inverterMaxOutput this / 50)) by field.
  field.
Qed.

(** The percent of a position of the slider is between 0 and 200. *)
Lemma sliderKwToPercent_bounds (this : Card) (kw : Q) :
  (0 < _inverterMaxOutput this)%Q ->
  (_percentToSliderKw this 10 <= kw)%Q -> (kw <= _percentToSliderKw this 100)%Q ->
  0 <= _sliderKwToPercent this kw <= 200.
Proof.
  intros HM Hlo Hhi.
  pose proof (percentToSliderKw_value this 10) as Hmin.
  pose proof (percentToSliderKw_value this 100) as Hmax.
  set (lo := _percentToSliderKw this 10) in *.
  set (hi := _percentToSliderKw this 100) in *.
  set (M := _inverterMaxOutput this) in *.
  assert (HM0 : ~ (M == 0)%Q) by lra.
  destruct (round_bounds (10 * M / 50)) as [Ha1 Ha2].
  destruct (round_bounds (100 * M / 50)) as [Hb1 Hb2].
  set (a := Math_round (10 * M / 50)) in *.
  set (b := Math_round (100 * M / 50)) in *.
  assert (HA : (10 * M / 50 * 5 == M)%Q) by field.
  assert (HB : (100 * M / 50 == 2 * M)%Q) by field.
  set (A := (10 * M / 50)%Q) in *. set (B := (100 * M / 50)%Q) in *.
  assert (Ha : 0 <= a).
  { assert (H : (-1 < inject_Z a)%Q) by lra.
    change (-1)%Q with (inject_Z (-1)) in H. rewrite <- Zlt_Qlt in H. lia. }
  assert (Ha' : (0 <= inject_Z a)%Q).
  { change 0%Q with (inject_Z 0). rewrite <- Zle_Qle. exact Ha. }
  assert (Hkw0 : (0 <= kw)%Q) by lra.
  unfold _sliderKwToPercent. fold M.
  assert (HX : (kw / M * 100 * M == kw * 100)%Q) by (field; exact HM0).
  set (X := (kw / M * 100)%Q) in *.
  assert (HX0 : (0 <= X)%Q) by nra.
  assert (HX200 : (X <= 200)%Q).
  { destruct (Qlt_le_dec M (1 # 4)) as [Htiny | Hbig].
    - assert (Hb : b = 0).
      { apply round_unique; change (inject_Z 0) with 0%Q; fold B; lra. }
      rewrite Hb in Hmax. change (inject_Z 0) with 0%Q in Hmax.
      assert (Hkw : (kw <= 0)%Q) by lra. nra.
    - assert (Hkw : (kw <= M + (1 # 4))%Q) by lra. nra. }
  destruct (round_bounds X) as [Hp1 Hp2].
  set (p := Math_round X) in *.
  split.
  - assert (H : (-1 < inject_Z p)%Q) by lra.
    change (-1)%Q with (inject_Z (-1)) in H. rewrite <- Zlt_Qlt in H. lia.
  - assert (H : (inject_Z p < 201)%Q) by lra.
    change 201%Q with (inject_Z 201) in H. rewrite <- Zlt_Qlt in H. lia.
Qed.

Lemma round_tenths (p : Z) : Math_round (inject_Z (p * 10) / 10) = p.
Proof.
  rewrite (round_comp (inject_Z (p * 10) / 10) (inject_Z p)).
  - apply round_inject.
  - rewrite inject_Z_mult. change (inject_Z 10) with 10%Q. field.
Qed.

Lemma sliderKwToPercent_half (this : Card) (kw : Q) (j : Z) :
  (kw * 2 == inject_Z j)%Q ->
  (kw == inject_Z j / 2)%Q
  /\ _sliderKwToPercent this kw = _sliderKwToPercent this (inject_Z j / 2).
Proof.
  intros H.
  assert (Hkw : (kw == inject_Z j / 2)%Q).
  { rewrite <- H. field. }
  split; [exact Hkw |].
  unfold _sliderKwToPercent. apply round_comp. rewrite Hkw. reflexivity.
Qed.


Lemma snapshotFull_required (d : Direction) (id : string) :
  In id (requiredOf defaultEntities d) -> is_Some (states snapshotFull !! id).
Proof.
  intros Hin. destruct d; simpl in Hin;
    repeat (destruct Hin as [<- | Hin]); try contradiction;
    vm_compute; eexists; reflexivity.
Qed.


Lemma tenth_position_below (V Y RM TM PM M J : Q) :
  (V - (1 # 2) <= Y)%Q -> (Y * 50 == RM)%Q -> (RM <= TM + M * (1 # 2))%Q ->
  (TM * 10 == PM)%Q -> (PM <= 50 * J + M * (1 # 2))%Q ->
  (0 < M)%Q -> (M < 50)%Q -> (2 <= J)%Q -> (V < J)%Q.
Proof. intros. lra. Qed.

Lemma half_below (v V J kw : Q) :
  (v * 2 == V)%Q -> (V < J)%Q -> (kw * 2 == J)%Q -> (v < kw)%Q.
Proof. intros. lra. Qed.




(** ** The sections *)

Lemma required_present_dec (hass : Hass) (ids : list string) :
  (forall id, In id ids -> is_Some (states hass !! id))
  \/ (exists id, In id ids /\ states hass !! id = None).
Proof.
  induction ids as [|id rest IH]; [left; intros id [] |].
  destruct (states hass !! id) as [x|] eqn:Hid.
  - destruct IH as [IH | (id' & Hin & Hnone)].
    + left. intros id' [<- | Hin]; [rewrite Hid; eexists; reflexivity | exact (IH _ Hin)].
    + right. exists id'. split; [right; exact Hin | exact Hnone].
  - right. exists id. split; [left; reflexivity | exact Hid].
Qed.

Lemma sectionOf_missing (this : Card) (hass : Hass) (d : Direction) (id : string) :
  In id (requiredOf (_entities this) d) -> states hass !! id = None ->
  exists heading check, sectionOf this hass d = Some (CardError heading check).
Proof.
  intros Hin Hnone.
  destruct d; cbn [sectionOf requiredOf startTimeOf endTimeOf dayMaskOf powerOf
                     switchOf] in *;
    [unfold _renderChargingSection | unfold _renderDischargingSection];
    cbv zeta; simpl in Hin;
    repeat (destruct Hin as [<- | Hin]); try contradiction;
    rewrite Hnone;
    repeat match goal with
      | |- context [match states hass !! ?i with _ => _ end] =>
          destruct (states hass !! i)
      end;
    eexists _, _; reflexivity.
Qed.

(** X18.  A section shows the error panel exactly when one of its five
    entities (start time, end time, day mask, power, switch) is missing
    from the host state; the power sensors play no part.  With the five
    entities it shows its controls, provided the state of the power entity
    is a text that the embedding of [parseInt] reads. *)
Theorem section_error_iff_missing (this : Card) (hass : Hass) (d : Direction) :
  ((exists heading check, sectionOf this hass d = Some (CardError heading check))
   <-> exists id, In id (requiredOf (_entities this) d) /\ states hass !! id = None)
  /\ (forall power n,
        (forall id, In id (requiredOf (_entities this) d) ->
                    is_Some (states hass !! id)) ->
        states hass !! powerOf (_entities this) d = Some power ->
        parseInt (state power) = Some n ->
        exists controls, sectionOf this hass d = Some (SectionControls controls)).
Proof.
  split; [split |].
  - intros (heading & check & Herror).
    destruct (required_present_dec hass (requiredOf (_entities this) d))
      as [Hall | Hmissing]; [| exact Hmissing].
    exfalso.
    destruct (Hall (powerOf (_entities this) d)) as [power Hpower]; [simpl; tauto |].
    destruct (parseInt (state power)) as [n|] eqn:Hparse.
    + destruct (sectionOf_controls this hass d power n Hall Hpower Hparse)
        as (sw & end_ & Hsection).
      congruence.
    + revert Herror.
      destruct d; cbn [sectionOf requiredOf startTimeOf endTimeOf dayMaskOf powerOf
                         switchOf] in *;
        [unfold _renderChargingSection | unfold _renderDischargingSection];
        cbv zeta;
        repeat match goal with
          | |- context [states hass !! ?id] =>
              lazymatch id with
              | chargePower _ => fail
              | dischargePower _ => fail
              | _ =>
                  let e := fresh "e" in
                  let He := fresh "He" in
                  destruct (Hall id ltac:(simpl; tauto)) as [e He]; rewrite He
              end
          end;
        rewrite Hpower, Hparse; discriminate.
  - intros (id & Hin & Hnone). exact (sectionOf_missing this hass d id Hin Hnone).
  - intros power n Hall Hpower Hparse.
    destruct (sectionOf_controls this hass d power n Hall Hpower Hparse)
      as (sw & end_ & Hsection).
    eexists. exact Hsection.
Qed.

Lemma section_error_iff_missing_witness :
  (exists heading check,
     sectionOf (cardWith "both" (Some snapshotA)) snapshotA Charge
     = Some (CardError heading check))
  /\ exists controls,
       sectionOf (cardWith "both" (Some snapshotFull)) snapshotFull Discharge
       = Some (SectionControls controls).
Proof.
  split.
  - destruct (section_error_iff_missing (cardWith "both" (Some snapshotA))
                snapshotA Charge) as [[_ H] _].
    apply H. exists "text.saj_charge_start_time_time".
    split; [left; reflexivity | reflexivity].
  - destruct (section_error_iff_missing (cardWith "both" (Some snapshotFull))
                snapshotFull Discharge) as [_ H].
    apply (H (entity 9 "50" [] "t0") (Some 50)).
    + apply snapshotFull_required.
    + reflexivity.
    + reflexivity.
Defined.

Lemma half_of (v V : Q) : (v * 2 == V)%Q -> (v == V * (1 # 2))%Q.
Proof. intros. lra. Qed.



(** X20.  The card size counts the sections: it is 1 plus 3 for each
    section that [_renderCard] renders, so 4 with one section and 7 with
    both; the clamp to 1..15 never acts.  The discharging section comes
    first. *)
Theorem cardSize_counts_sections (this : Card) :
  getCardSize this = 1 + 3 * Z.of_nat (length (renderedDirections this))
  /\ (getCardSize this = 4 \/ getCardSize this = 7)
  /\ (getCardSize this = 7 <-> renderedDirections this = [Discharge; Charge]).
Proof.
  unfold getCardSize, renderedDirections.
  destruct (String.eqb_spec (_mode this) "discharge") as [Hd | Hd];
    destruct (String.eqb_spec (_mode this) "charge") as [Hc | Hc];
    cbn [negb app length Z.of_nat];
    try (exfalso; rewrite Hd in Hc; discriminate);
    (split; [reflexivity |]); (split; [(left; reflexivity) || (right; reflexivity) |]);
    split; (discriminate || reflexivity || (intros _; reflexivity)).
Qed.

(** ** The fill of a slider *)

Lemma fraction_bounds (X D N : Q) :
  (X * D == N)%Q -> (0 < D)%Q -> (0 <= N)%Q -> (N <= D)%Q ->
  (0 <= X * 100)%Q /\ (X * 100 <= 100)%Q.
Proof. intros. split; nra. Qed.

(** X21.  [_updateSingleSliderStyle] never divides by zero and keeps the
    fill within 0 to 100 percent: without a slider it does nothing; with
    equal bounds the fill is 0; with a value between distinct bounds it is
    between 0 and 100.  A bound or a value that is missing, no number or 0
    is read as its default (0, 100 for the maximum, 0). *)
Theorem sliderStyle_fill (s : Slider) :
  let lo := floatOr (slider_min s) 0 in
  let hi := floatOr (slider_max s) 100 in
  let v := floatOr (slider_value s) 0 in
  _updateSingleSliderStyle None = None
  /\ exists fill,
       _updateSingleSliderStyle (Some s) = Some fill
       /\ ((hi == lo)%Q -> fill = 0%Q)
       /\ ((lo < hi)%Q -> (lo <= v)%Q -> (v <= hi)%Q ->
           (0 <= fill)%Q /\ (fill <= 100)%Q).
Proof.
  cbv zeta. split; [reflexivity |].
  unfold _updateSingleSliderStyle.
  set (lo := floatOr (slider_min s) 0).
  set (hi := floatOr (slider_max s) 100).
  set (v := floatOr (slider_value s) 0).
  eexists. split; [reflexivity |]. split.
  - intros Heq. apply Qeq_bool_iff in Heq. rewrite Heq. reflexivity.
  - intros Hlt Hlo Hhi.
    destruct (Qeq_bool hi lo) eqn:Heq.
    + apply Qeq_bool_iff in Heq. lra.
    + apply (fraction_bounds ((v - lo) / (hi - lo)) (hi - lo) (v - lo)).
      * field. lra.
      * lra.
      * lra.
      * lra.
Qed.

Lemma sliderStyle_fill_witness :
  exists fill,
    _updateSingleSliderStyle
      (Some {| slider_min := Some (1 # 2); slider_max := Some 5%Q;
               slider_value := Some (5 # 2) |})
    = Some fill
    /\ (0 <= fill)%Q /\ (fill <= 100)%Q.
Proof.
  destruct (sliderStyle_fill {| slider_min := Some (1 # 2); slider_max := Some 5%Q;
                                slider_value := Some (5 # 2) |})
    as (_ & fill & Hfill & _ & Hbounds).
  exists fill. split; [exact Hfill |].
  apply Hbounds; vm_compute; congruence.
Defined.

(** ** Deep merge, continued *)

Lemma keys_setProp (props : list (string * JValue)) (key : string) (v : JValue) :
  map fst (setProp props key v) = addKey (map fst props) key.
Proof.
  unfold addKey. induction props as [|[k w] rest IH]; [reflexivity |].
  cbn [setProp map fst existsb].
  rewrite (String.eqb_sym key k).
  destruct (String.eqb k key) eqn:E; [reflexivity |].
  cbn [map fst orb]. rewrite IH.
  destruct (existsb (String.eqb key) (map fst rest)); reflexivity.
Qed.

Lemma addKey_present (keys : list string) (key : string) :
  In key keys -> addKey keys key = keys.
Proof.
  intros Hin. unfold addKey.
  assert (H : existsb (String.eqb key) keys = true).
  { apply existsb_exists. exists key. split; [exact Hin | apply String.eqb_refl]. }
  rewrite H. reflexivity.
Qed.

Lemma addKey_In (keys : list string) (key k : string) :
  In k (addKey keys key) <-> In k keys \/ k = key.
Proof.
  unfold addKey. destruct (existsb (String.eqb key) keys) eqn:E.
  - apply existsb_exists in E as (x & Hx & Heq). apply String.eqb_eq in Heq. subst x.
    split; [tauto | intros [H | ->]; assumption].
  - rewrite in_app_iff. simpl. split; intros [H | H]; auto.
    destruct H as [<- | []]. right; reflexivity.
Qed.

Lemma NoDup_snoc (keys : list string) (key : string) :
  List.NoDup keys -> ~ In key keys -> List.NoDup (keys ++ [key])%list.
Proof.
  induction keys as [|k rest IH]; intros Hnd Hnot.
  - constructor; [intros [] | constructor].
  - apply NoDup_cons_iff in Hnd as [Hk Hnd]. cbn [app].
    apply NoDup_cons_iff. split.
    + rewrite in_app_iff. simpl. intros [H | [H | []]]; [tauto |].
      apply Hnot. left. symmetry. exact H.
    + apply IH; [exact Hnd |]. intros H. apply Hnot. right. exact H.
Qed.

Lemma addKey_NoDup (keys : list string) (key : string) :
  List.NoDup keys -> List.NoDup (addKey keys key).
Proof.
  intros Hnd. unfold addKey. destruct (existsb (String.eqb key) keys) eqn:E; [exact Hnd |].
  apply NoDup_snoc; [exact Hnd |]. intros Hin.
  assert (H : existsb (String.eqb key) keys = true).
  { apply existsb_exists. exists key. split; [exact Hin | apply String.eqb_refl]. }
  congruence.
Qed.

Lemma keys_mergeLoop (s output : list (string * JValue)) :
  map fst (fold_left mergeStep s output)
  = fold_left addKey (map fst s) (map fst output).
Proof.
  revert output. induction s as [|[k v] rest IH]; intros output; [reflexivity |].
  cbn [fold_left map fst]. rewrite IH. unfold mergeStep. rewrite keys_setProp.
  reflexivity.
Qed.

Lemma keys_restoreLoop (t s : list (string * JValue)) (keys : list string)
    (output : list (string * JValue)) :
  (forall k, In k keys -> In k (map fst output)) ->
  map fst (fold_left (restoreStep t s) keys output) = map fst output.
Proof.
  revert output. induction keys as [|k rest IH]; intros output Hin; [reflexivity |].
  cbn [fold_left].
  assert (Hstep : map fst (restoreStep t s output k) = map fst output).
  { unfold restoreStep. destruct (isUndefined (lookupProp s k)); [| reflexivity].
    rewrite keys_setProp. apply addKey_present, Hin. left. reflexivity. }
  rewrite IH; [exact Hstep |].
  intros k' Hk'. rewrite Hstep. apply Hin. right. exact Hk'.
Qed.

Lemma addKeys_In (added keys : list string) (k : string) :
  In k (fold_left addKey added keys) <-> In k keys \/ In k added.
Proof.
  revert keys. induction added as [|a rest IH]; intros keys; cbn [fold_left].
  - simpl. tauto.
  - rewrite IH, addKey_In. simpl. split; intros H; intuition (subst; auto).
Qed.

Lemma addKeys_NoDup (added keys : list string) :
  List.NoDup keys -> List.NoDup (fold_left addKey added keys).
Proof.
  revert keys. induction added as [|a rest IH]; intros keys Hnd; [exact Hnd |].
  cbn [fold_left]. apply IH, addKey_NoDup, Hnd.
Qed.

Lemma merged_keys_of (t s : list (string * JValue)) :
  exists output,
    _deepMerge (JObject t) (JObject s) = JObject output
    /\ map fst output = fold_left addKey (map fst s) (map fst t).
Proof.
  eexists. split; [apply deepMerge_objects |].
  rewrite keys_restoreLoop.
  - apply keys_mergeLoop.
  - intros k Hk. rewrite keys_mergeLoop. apply addKeys_In. left. exact Hk.
Qed.


Lemma setProp_same (props : list (string * JValue)) (key : string) :
  In key (map fst props) -> setProp props key (lookupProp props key) = props.
Proof.
  induction props as [|[k w] rest IH]; [intros [] |].
  cbn [map fst setProp lookupProp]. intros Hin.
  destruct (String.eqb k key) eqn:E; [reflexivity |].
  f_equal. apply IH. destruct Hin as [-> | Hin]; [| exact Hin].
  rewrite String.eqb_refl in E. discriminate.
Qed.

Lemma restoreLoop_same (t : list (string * JValue)) (keys : list string) :
  (forall k, In k keys -> In k (map fst t)) ->
  fold_left (restoreStep t []) keys t = t.
Proof.
  induction keys as [|k rest IH]; intros Hin; [reflexivity |].
  cbn [fold_left]. unfold restoreStep at 2. cbn [lookupProp isUndefined].
  rewrite setProp_same by (apply Hin; left; reflexivity).
  apply IH. intros k' Hk'. apply Hin. right. exact Hk'.
Qed.

(** X23.  What leaves the target as it is, and what replaces it: merging
    the empty object, [null] or [undefined] returns the target unchanged;
    a source that is a scalar or an array is returned in place of the
    target, and so is any source other than [null] and [undefined] when
    the target is no object. *)
Theorem deepMerge_neutral_and_replacing :
  (forall t, _deepMerge (JObject t) (JObject []) = JObject t)
  /\ (forall target, _deepMerge target JNull = target
                     /\ _deepMerge target JUndefined = target)
  /\ (forall target source,
        isObject source = false -> source <> JNull -> source <> JUndefined ->
        _deepMerge target source = source)
  /\ (forall target source,
        isObject target = false -> source <> JNull -> source <> JUndefined ->
        _deepMerge target source = source).
Proof.
  split; [| split; [| split]].
  - intros t. rewrite deepMerge_objects. cbn [fold_left].
    rewrite restoreLoop_same; [reflexivity | tauto].
  - intros target. split; destruct target; reflexivity.
  - intros target source Hobj Hnull Hundef.
    destruct target, source; try discriminate; try congruence; reflexivity.
  - intros target source Hobj Hnull Hundef.
    destruct target, source; try discriminate; try congruence; reflexivity.
Qed.

(** ** Configuration, continued *)

Lemma maxOutput_valid_iff (v : JValue) :
  truthy v = true -> (Config.invalidMaxOutput v = false <-> positiveNumber v).
Proof.
  intros Htruthy. split.
  - intros Hvalid.
    destruct v as [| |b|[|negative|q]|s|items|props]; simpl in *; try discriminate.
    + exact Hvalid.
    + apply negb_true_iff in Htruthy.
      assert (Hle : ~ (q <= 0)%Q).
      { intros H. apply Qle_bool_iff in H. congruence. }
      lra.
  - intros Hpos. destruct (Config.invalidMaxOutput v) eqn:E; [| reflexivity].
    destruct v as [| |b|[|negative|q]|s|items|props]; simpl in *; try contradiction.
    + congruence.
    + apply Qle_bool_iff in E. lra.
Qed.

Lemma setConfig_cases (this : Config.Card) (config : JValue) :
  (truthy config = false
   /\ Config.setConfig this config
      = {| Config.card := this; Config.thrown := Some Config.InvalidConfiguration;
           Config.rendered := false |})
  \/ (truthy config = true /\ Config.validMode (modeOf config) = false
      /\ Config.thrown (Config.setConfig this config)
         = Some (Config.InvalidMode (modeOf config)))
  \/ (truthy config = true /\ Config.validMode (modeOf config) = true
      /\ Config.invalidMaxOutput
           (orElse (getProp config "maxOutput") (JNumber (JFinite 5))) = true
      /\ Config.thrown (Config.setConfig this config)
         = Some (Config.InvalidMaxOutput
                   (orElse (getProp config "maxOutput") (JNumber (JFinite 5)))))
  \/ (truthy config = true /\ Config.validMode (modeOf config) = true
      /\ Config.invalidMaxOutput
           (orElse (getProp config "maxOutput") (JNumber (JFinite 5))) = false
      /\ Config.setConfig this config
         = {| Config.card := configured this config; Config.thrown := None;
              Config.rendered := Config._hass this |}).
Proof.
  unfold Config.setConfig.
  destruct (truthy config) eqn:Htruthy; cbn [negb]; [| left; split; reflexivity].
  right.
  cbn [Config._mode Config._inverterMaxOutput Config._entities Config._hass
       Config._debug].
  change (orElse (getProp config "mode") (JString "both")) with (modeOf config).
  destruct (Config.validMode (modeOf config)) eqn:Hmode; cbn [negb].
  - right.
    destruct (Config.invalidMaxOutput
                (orElse (getProp config "maxOutput") (JNumber (JFinite 5)))) eqn:Hmax.
    + left. repeat split; reflexivity.
    + right. repeat split; reflexivity.
  - left. repeat split; reflexivity.
Qed.

Lemma acceptable_maxOutput (config : JValue) :
  (truthy (getProp config "maxOutput") = false
   \/ positiveNumber (getProp config "maxOutput"))
  <-> Config.invalidMaxOutput
        (orElse (getProp config "maxOutput") (JNumber (JFinite 5))) = false.
Proof.
  unfold orElse. destruct (truthy (getProp config "maxOutput")) eqn:Htruthy.
  - rewrite (maxOutput_valid_iff _ Htruthy). split; [intros [H | H] | intros H].
    + discriminate.
    + exact H.
    + right. exact H.
  - split; [reflexivity | left; reflexivity].
Qed.

Lemma setConfig_accepted_card (this : Config.Card) (config : JValue) :
  acceptable config ->
  Config.card (Config.setConfig this config) = configured this config
  /\ Config.thrown (Config.setConfig this config) = None.
Proof.
  intros (Ht & Hm & Hx). apply acceptable_maxOutput in Hx.
  destruct (setConfig_cases this config)
    as [[Ht' _] | [(_ & Hm' & _) | [(_ & _ & Hx' & _) | (_ & _ & _ & Heq)]]];
    try congruence.
  rewrite Heq. split; reflexivity.
Qed.

(** X24.  [setConfig] accepts a configuration exactly when it is truthy,
    its mode is absent (or falsy) or one of ['charge'], ['discharge'],
    ['both'], and its [maxOutput] is absent (or falsy) or a positive number.
    An accepted configuration replaces the previous one altogether: the
    mode, the maximum output, the entity map and the debug flag are those
    of the new configuration over the defaults, whatever the card held
    before.  A falsy configuration is refused with the card untouched, and
    a truthy value that is no object is accepted as the empty
    configuration. *)
Theorem setConfig_accepts_exactly (this : Config.Card) (config : JValue) :
  let result := Config.setConfig this config in
  (Config.thrown result = None <-> acceptable config)
  /\ (Config.thrown result = None ->
      Config.card result = configured this config
      /\ Config.rendered result = Config._hass this)
  /\ (Config.thrown result = Some Config.InvalidConfiguration
      <-> truthy config = false)
  /\ (truthy config = false -> Config.card result = this)
  /\ (truthy config = true -> isObject config = false ->
      Config.thrown result = None
      /\ Config.card result = configured this (JObject [])).
Proof.
  cbv zeta. unfold acceptable. rewrite acceptable_maxOutput.
  destruct (setConfig_cases this config)
    as [[Ht Heq] | [(Ht & Hm & Heq) | [(Ht & Hm & Hx & Heq) | (Ht & Hm & Hx & Heq)]]];
    rewrite ?Heq; cbn [Config.thrown Config.card Config.rendered].
  - split; [split; [discriminate | intros (H & _); congruence] |].
    split; [discriminate |]. split; [tauto |]. split; [reflexivity |].
    intros H. congruence.
  - split; [split; [discriminate | intros (_ & H & _); congruence] |].
    split; [discriminate |].
    split; [split; [discriminate | congruence] |].
    split; [congruence |].
    intros _ Hobj. exfalso.
    destruct config; try discriminate; discriminate Hm.
  - split; [split; [discriminate | intros (_ & _ & H); congruence] |].
    split; [discriminate |].
    split; [split; [discriminate | congruence] |].
    split; [congruence |].
    intros _ Hobj. exfalso.
    destruct config; try discriminate; discriminate Hx.
  - split; [split; [intros _; repeat split; assumption | reflexivity] |].
    split; [intros _; split; reflexivity |].
    split; [split; [discriminate | congruence] |].
    split; [congruence |].
    intros _ Hobj. split; [reflexivity |].
    destruct config; try discriminate; reflexivity.
Qed.

Lemma lookupProp_defined_In (props : list (string * JValue)) (key : string) :
  lookupProp props key <> JUndefined -> In (key, lookupProp props key) props.
Proof.
  induction props as [|[k w] rest IH]; cbn [lookupProp]; [congruence |].
  destruct (String.eqb k key) eqn:E.
  - apply String.eqb_eq in E. subst k. intros _. left. reflexivity.
  - intros H. right. exact (IH H).
Qed.

(** The value of every key of the merged object, [undefined] included. *)
Lemma deepMerge_lookup_all (t s : list (string * JValue)) (key : string) :
  List.NoDup (map fst s) ->
  getProp (_deepMerge (JObject t) (JObject s)) key
  = if isUndefined (lookupProp s key) then lookupProp t key
    else mergedValue (lookupProp t key) (lookupProp s key).
Proof.
  intros Hnd. rewrite deepMerge_objects. cbn [getProp].
  rewrite restoreLoop_lookup.
  destruct (mergeLoop_lookup s t key Hnd) as [Hin Hout].
  destruct (isUndefined (lookupProp s key)) eqn:Hundef.
  - rewrite andb_true_r.
    destruct (bool_decide (key ∈ map fst t)) eqn:Ht; [reflexivity |].
    apply bool_decide_eq_false in Ht.
    assert (Habsent : lookupProp t key = JUndefined).
    { apply lookupProp_absent. unfold hasKey. intros H.
      apply Ht, list_elem_of_In, H. }
    destruct (in_dec string_dec key (map fst s)) as [Hs | Hs].
    + apply in_map_iff in Hs as ([k sv] & Hk & Hs). cbn [fst] in Hk. subst k.
      rewrite (Hin sv Hs).
      rewrite (lookupProp_In s key sv Hnd Hs) in Hundef.
      destruct sv; try discriminate. rewrite Habsent. reflexivity.
    + exact (Hout Hs).
  - rewrite andb_false_r.
    apply Hin, lookupProp_defined_In.
    intros H. rewrite H in Hundef. discriminate.
Qed.

Lemma default_roles_scalar (role : string) (sv : JValue) :
  mergedValue (getProp DEFAULT_ENTITIES role) sv = sv.
Proof.
  unfold mergedValue.
  assert (H : isArray (getProp DEFAULT_ENTITIES role) = false
              /\ isObject (getProp DEFAULT_ENTITIES role) = false).
  { cbn [getProp DEFAULT_ENTITIES lookupProp].
    repeat match goal with
      | |- context [String.eqb ?a role] => destruct (String.eqb a role)
      end; split; reflexivity. }
  destruct H as [-> ->]. reflexivity.
Qed.

(** X25.  The entity map of an accepted configuration.  Without
    [entities] (or with a falsy one) it is the default map.  With an object
    (which has no key twice), each role holds the override when the object
    gives one other than [undefined], of whatever type, and its default
    otherwise.  With a truthy value that is no object (a text, a number, an
    array, [true]) the map is that value, and no role has an entity. *)
Theorem setConfig_entities (this : Config.Card) (config : JValue) :
  acceptable config ->
  let entities := Config._entities (Config.card (Config.setConfig this config)) in
  let given := getProp config "entities" in
  (truthy given = false -> entities = DEFAULT_ENTITIES)
  /\ (forall overrides role,
        given = JObject overrides -> List.NoDup (map fst overrides) ->
        roleOf entities role
        = if isUndefined (lookupProp overrides role)
          then roleOf DEFAULT_ENTITIES role
          else lookupProp overrides role)
  /\ (truthy given = true -> isObject given = false ->
      entities = given /\ forall role, roleOf entities role = JUndefined).
Proof.
  intros Hok. cbv zeta.
  destruct (setConfig_accepted_card this config Hok) as [Hcard _].
  rewrite Hcard. cbn [configured Config._entities].
  split; [| split].
  - intros Hfalsy. unfold orElse. rewrite Hfalsy.
    unfold DEFAULT_ENTITIES at 1. rewrite deepMerge_objects. cbn [fold_left].
    rewrite restoreLoop_same; [reflexivity | tauto].
  - intros overrides role Hgiven Hnd. rewrite Hgiven. cbn [orElse truthy].
    unfold roleOf. unfold DEFAULT_ENTITIES at 1.
    rewrite (deepMerge_lookup_all _ overrides role Hnd).
    destruct (isUndefined (lookupProp overrides role)); [reflexivity |].
    apply (default_roles_scalar role).
  - intros Htruthy Hobj. unfold orElse. rewrite Htruthy.
    assert (Heq : _deepMerge DEFAULT_ENTITIES (getProp config "entities")
                  = getProp config "entities").
    { destruct (getProp config "entities"); try discriminate; reflexivity. }
    rewrite Heq. split; [reflexivity |].
    intros role. unfold roleOf.
    destruct (getProp config "entities"); try discriminate; reflexivity.
Qed.

Lemma setConfig_entities_witness :
  let entities :=
    Config._entities (Config.card (Config.setConfig Config.constructor overrideConfig)) in
  roleOf entities "chargeEnd" = JString "text.my_end"
  /\ roleOf entities "chargingSwitch" = JString "switch.saj_charging_control".
Proof.
  cbv zeta.
  assert (Hok : acceptable overrideConfig).
  { split; [reflexivity |]. split; [reflexivity | left; reflexivity]. }
  destruct (setConfig_entities Config.constructor overrideConfig Hok) as (_ & H & _).
  assert (Hnd : List.NoDup (map fst [("chargeEnd", JString "text.my_end")])).
  { repeat constructor. simpl. tauto. }
  split.
  - rewrite (H [("chargeEnd", JString "text.my_end")] "chargeEnd" eq_refl Hnd).
    reflexivity.
  - rewrite (H [("chargeEnd", JString "text.my_end")] "chargingSwitch" eq_refl Hnd).
    reflexivity.
Defined.

(** ** What the expiry check and the writes never do *)

Lemma expiryBlock_In (env : Env) (hass : Hass) (switchId endId : string)
    (call : ServiceCall) :
  In call (expiryBlock env hass switchId endId) ->
  call = turn_off switchId
  /\ exists sw endEntity,
       states hass !! switchId = Some sw /\ state sw = "on"
       /\ states hass !! endId = Some endEntity /\ state endEntity <> ""
       /\ _timeToMinutes (Some (state endEntity)) <= currentMinutes env.
Proof.
  unfold expiryBlock.
  destruct (states hass !! switchId) as [sw|] eqn:Hsw; cbn [stateOf option_map];
    [| intros []].
  destruct (states hass !! endId) as [endEntity|] eqn:Hend; cbn [stateOf option_map];
    [| intros []].
  destruct (String.eqb (state sw) "on") eqn:Hon; cbn [andb]; [| intros []].
  destruct (String.eqb (state endEntity) "") eqn:Hempty; cbn [negb]; [intros [] |].
  rewrite timeToMinutes_now.
  destruct (Z.geb_spec (currentMinutes env) (_timeToMinutes (Some (state endEntity))))
    as [Hle | Hgt]; [| intros []].
  intros [<- | []]. split; [reflexivity |].
  exists sw, endEntity. split; [reflexivity |].
  split; [apply String.eqb_eq, Hon |]. split; [reflexivity |].
  split; [apply String.eqb_neq, Hempty | exact Hle].
Qed.

Lemma expiryBlock_length (env : Env) (hass : Hass) (switchId endId : string) :
  (length (expiryBlock env hass switchId endId) <= 1)%nat.
Proof.
  unfold expiryBlock.
  destruct (stateOf (states hass !! switchId)); [| simpl; lia].
  destruct (stateOf (states hass !! endId)); [| simpl; lia].
  destruct (_ && _); [| simpl; lia].
  destruct (_ >=? _); simpl; lia.
Qed.

(** X26.  The expiry check sends nothing but switch-offs of running
    timers that are over: each call it makes is the [turn_off] of the
    switch of a direction that the mode enables, whose switch is ['on'] and
    whose end time, a non-empty text, read as minutes since midnight, is
    not after the current minute.  A schedule that ends later today is left
    alone, and at most two calls are made. *)
Theorem checkTimerExpiration_only_expired (env : Env) (this : Card)
    (call : ServiceCall) :
  In call (_checkTimerExpiration env this) ->
  (length (_checkTimerExpiration env this) <= 2)%nat
  /\ exists hass d sw endEntity,
       _hass this = Some hass
       /\ enables (_mode this) d
       /\ call = turn_off (switchOf (_entities this) d)
       /\ states hass !! switchOf (_entities this) d = Some sw
       /\ state sw = "on"
       /\ states hass !! endTimeOf (_entities this) d = Some endEntity
       /\ state endEntity <> ""
       /\ _timeToMinutes (Some (state endEntity)) <= currentMinutes env.
Proof.
  destruct (_hass this) as [hass|] eqn:Hhass.
  2:{ unfold _checkTimerExpiration. rewrite Hhass. intros []. }
  rewrite (checkTimerExpiration_blocks env this hass Hhass).
  intros Hin. split.
  { rewrite length_app.
    pose proof (expiryBlock_length env hass (chargingSwitch (_entities this))
                  (chargeEnd (_entities this))).
    pose proof (expiryBlock_length env hass (dischargingSwitch (_entities this))
                  (dischargeEnd (_entities this))).
    destruct (negb (String.eqb (_mode this) "discharge"));
      destruct (negb (String.eqb (_mode this) "charge")); simpl; lia. }
  apply in_app_iff in Hin as [Hin | Hin].
  - destruct (String.eqb_spec (_mode this) "discharge") as [Hm | Hm];
      cbn [negb] in Hin; [destruct Hin |].
    apply expiryBlock_In in Hin as (Hcall & sw & endEntity & H).
    exists hass, Charge, sw, endEntity.
    split; [reflexivity |]. split; [exact Hm |]. split; [exact Hcall | exact H].
  - destruct (String.eqb_spec (_mode this) "charge") as [Hm | Hm];
      cbn [negb] in Hin; [destruct Hin |].
    apply expiryBlock_In in Hin as (Hcall & sw & endEntity & H).
    exists hass, Discharge, sw, endEntity.
    split; [reflexivity |]. split; [exact Hm |]. split; [exact Hcall | exact H].
Qed.

Lemma checkTimerExpiration_only_expired_witness :
  _checkTimerExpiration lateEvening (cardWith "both" (Some snapshotA))
  = [turn_off "switch.saj_charging_control"]
  /\ exists endEntity,
       states snapshotA !! "text.saj_charge_end_time_time" = Some endEntity
       /\ _timeToMinutes (Some (state endEntity)) <= currentMinutes lateEvening.
Proof.
  split; [reflexivity |].
  destruct (checkTimerExpiration_only_expired lateEvening
              (cardWith "both" (Some snapshotA))
              (turn_off "switch.saj_charging_control"))
    as (_ & hass & d & sw & endEntity & Hhass & _ & Hcall & _ & _ & Hend & _ & Hle).
  - left. reflexivity.
  - injection Hhass as <-.
    destruct d; [| discriminate Hcall].
    exists endEntity. split; [exact Hend | exact Hle].
Defined.

(** ** A skipped refresh loses nothing *)

Lemma required_relevant (this : Card) (d : Direction) (id : string) :
  In d (renderedDirections this) ->
  In id (requiredOf (_entities this) d) -> In id (relevantEntityIds this).
Proof.
  unfold renderedDirections, relevantEntityIds.
  intros Hd Hid. apply in_app_iff in Hd. apply in_app_iff.
  destruct d.
  - left. destruct Hd as [Hd | Hd].
    + destruct (negb (String.eqb (_mode this) "charge")); simpl in Hd;
        [destruct Hd as [Hd | []]; discriminate | destruct Hd].
    + destruct (negb (String.eqb (_mode this) "discharge")); [| destruct Hd].
      simpl in Hid. simpl. tauto.
  - right. destruct Hd as [Hd | Hd].
    + destruct (negb (String.eqb (_mode this) "charge")); [| destruct Hd].
      simpl in Hid. simpl. tauto.
    + destruct (negb (String.eqb (_mode this) "discharge")); simpl in Hd;
        [destruct Hd as [Hd | []]; discriminate | destruct Hd].
Qed.

Lemma unchanged_shown (a b : option Entity) :
  entityChanged a b = false ->
  (forall x y, a = Some x -> b = Some y -> identity x = identity y ->
               state x = state y /\ pending_write x = pending_write y) ->
  shownAlike a b.
Proof.
  destruct a as [x|], b as [y|]; cbn [entityChanged shownAlike]; try discriminate;
    [| tauto].
  intros Hsame Himmutable.
  destruct (Pos.eqb_spec (identity x) (identity y)) as [Hid | Hid].
  - exact (Himmutable x y eq_refl eq_refl Hid).
  - apply orb_false_iff in Hsame as [Hsame _].
    apply orb_false_iff in Hsame as [Hsame _].
    apply orb_false_iff in Hsame as [Hstate Hpending].
    apply negb_false_iff in Hstate, Hpending.
    apply String.eqb_eq in Hstate. apply bool_decide_eq_true in Hpending.
    split; assumption.
Qed.

Lemma controlsOf_alike (this : Card) (percent : Z) (sw sw' end_ end_' : Entity) :
  shownAlike (Some sw) (Some sw') -> shownAlike (Some end_) (Some end_') ->
  controlsOf this percent sw end_ = controlsOf this percent sw' end_'.
Proof.
  cbn [shownAlike]. intros [Hs Hp] [He _]. unfold controlsOf.
  rewrite Hs, Hp, He. reflexivity.
Qed.

Lemma sectionOf_alike (this : Card) (A B : Hass) (d : Direction) :
  (forall id, In id (requiredOf (_entities this) d) ->
              shownAlike (states A !! id) (states B !! id)) ->
  sectionOf this A d = sectionOf this B d.
Proof.
  intros Halike.
  destruct d; cbn [sectionOf requiredOf startTimeOf endTimeOf dayMaskOf powerOf
                     switchOf] in *;
    [unfold _renderChargingSection | unfold _renderDischargingSection];
    cbv zeta;
    repeat match goal with
      | |- context [states A !! ?id] =>
          let H := fresh "H" in
          pose proof (Halike id ltac:(simpl; tauto)) as H;
          destruct (states A !! id), (states B !! id);
          cbn [shownAlike] in H; try contradiction
      end;
    try reflexivity;
    repeat match goal with
      | H : state _ = state _ /\ _ |- _ => destruct H
      end;
    match goal with
    | Hpower : state ?p = state ?p' |- context [parseInt (state ?p)] =>
        rewrite Hpower; destruct (parseInt (state p')); [| reflexivity]
    end;
    f_equal; f_equal; apply controlsOf_alike; cbn [shownAlike]; split; assumption.
Qed.


